(** * BEE URL shortener: short-code allocation and redirect counting

    A shallow embedding of the request handlers of [server.js] (the
    application with accounts, custom aliases and click counts), of the
    Mongoose model [models/url.js] they use, and of the [POST /shorten]
    handler of the prototype [src/index.js].

    Conventions.
    - A JavaScript string is a [string]: one [ascii] per UTF-16 code unit,
      restricted to the code units U+0000..U+00FF.
    - A MongoDB collection is the list of its documents in natural
      (insertion) order; [findOne] returns the first match.
    - An [ObjectId] is a natural number; the collection carries the next
      fresh one.
    - [Math.random] is a tape of rationals read at a cursor; the cursor is
      part of the state.  A double is a dyadic rational, and for every
      double [x < 1] the product [x * 62] rounds to a double below 62, so
      the floor taken on the exact product is the one JavaScript computes.
    - [clicks] is a natural number (the counter stays far below 2^53).
    - [createdAt] plays no part in any handler and is left out of [Url]. *)

From Stdlib Require Import String Ascii List Arith ZArith QArith Qround Lia Bool.
From Equations Require Import Equations.
Import ListNotations.

Close Scope Q_scope.
Open Scope string_scope.

(** ** JavaScript strings *)

Module JS.

(** WhiteSpace and LineTerminator code units below U+0100: TAB, LF, VT,
    FF, CR, SP and NBSP. *)
Definition isWhiteSpace (c : ascii) : bool :=
  let n := nat_of_ascii c in
  (Nat.leb 9 n && Nat.leb n 13) || Nat.eqb n 32 || Nat.eqb n 160.

Fixpoint trimStart (s : string) : string :=
  match s with
  | EmptyString => EmptyString
  | String c s' => if isWhiteSpace c then trimStart s' else s
  end.

Fixpoint trimEnd (s : string) : string :=
  match s with
  | EmptyString => EmptyString
  | String c s' =>
      match trimEnd s' with
      | EmptyString => if isWhiteSpace c then EmptyString else String c EmptyString
      | t => String c t
      end
  end.

(** [String.prototype.trim] *)
Definition trim (s : string) : string := trimEnd (trimStart s).

(** [String.prototype.charAt]: the one-character string at [i], or the
    empty string when [i] is out of range. *)
Definition charAt (s : string) (i : Z) : string :=
  if (i <? 0)%Z then EmptyString
  else match String.get (Z.to_nat i) s with
       | Some c => String c EmptyString
       | None => EmptyString
       end.

(** ToBoolean on a string-valued field of the request body: [undefined]
    and the empty string are falsy. *)
Definition truthy (v : option string) : bool :=
  match v with
  | None => false
  | Some s => negb (String.eqb s EmptyString)
  end.

End JS.

(** ** models/url.js *)

Record Url := mkUrl {
  _id : nat;
  fullUrl : string;
  shortUrl : string;
  user : nat;
  clicks : nat            (* { type: Number, default: 0 } *)
}.

(** The [urls] collection.  [shortUrl] carries a unique index. *)
Record Collection := mkCollection {
  docs : list Url;
  next_id : nat
}.

Module Model.

(** [Url.findOne({ shortUrl: s })] *)
Definition findOne (s : string) (c : Collection) : option Url :=
  find (fun u => String.eqb (shortUrl u) s) (docs c).

(** [Url.find({ user: uid })] *)
Definition find_user (uid : nat) (c : Collection) : list Url :=
  filter (fun u => Nat.eqb (user u) uid) (docs c).

(** [Url.create({ fullUrl, shortUrl, user })]: [clicks] takes its
    default; the unique index on [shortUrl] rejects a duplicate key
    (E11000), in which case the promise rejects and nothing is written. *)
Definition create (full short : string) (uid : nat) (c : Collection)
  : option Collection :=
  if existsb (fun u => String.eqb (shortUrl u) short) (docs c) then None
  else Some (mkCollection
               (docs c ++ [mkUrl (next_id c) full short uid 0])
               (S (next_id c))).

Definition inc_clicks (u : Url) : Url :=
  mkUrl (_id u) (fullUrl u) (shortUrl u) (user u) (S (clicks u)).

Fixpoint update_first (p : Url -> bool) (f : Url -> Url) (l : list Url)
  : list Url :=
  match l with
  | [] => []
  | u :: l' => if p u then f u :: l' else u :: update_first p f l'
  end.

Fixpoint remove_first (p : Url -> bool) (l : list Url) : list Url :=
  match l with
  | [] => []
  | u :: l' => if p u then l' else u :: remove_first p l'
  end.

(** [Url.findByIdAndUpdate(id, { $inc: { clicks: 1 } })]: one atomic
    update of the document with that [_id], a no-op when there is none. *)
Definition findByIdAndUpdate_inc (id : nat) (c : Collection) : Collection :=
  mkCollection
    (update_first (fun u => Nat.eqb (_id u) id) inc_clicks (docs c))
    (next_id c).

(** [Url.findOneAndDelete({ _id: id, user: uid })] *)
Definition findOneAndDelete (id uid : nat) (c : Collection) : Collection :=
  mkCollection
    (remove_first (fun u => Nat.eqb (_id u) id && Nat.eqb (user u) uid) (docs c))
    (next_id c).

End Model.

(** ** Server state and responses *)

Record World := mkWorld {
  db : Collection;
  rng : nat              (* cursor on the [Math.random] tape *)
}.

Inductive Response :=
| redirect (location : string)                (* res.redirect(location) *)
| send (body : string)                        (* res.send(body) *)
| render_dashboard (urls : list Url) (totalClicks totalLinks : nat)
| rejected.                                   (* the handler's promise rejected *)

(** The error kinds of the specification, as the responses that carry them. *)
Definition AliasTaken : Response := send "Custom alias already taken".
Definition AllocationExhausted : Response :=
  send "Could not generate unique short URL, try again".
Definition NotFound : Response := send "URL not found".

(** ** server.js *)

Section Server.

(** The values [Math.random()] returns, in the order of the calls. *)
Variable random : nat -> Q.

Definition chars : string :=
  "ABCDEFGHIJKLMNOPQRSTUVWXYZabcdefghijklmnopqrstuvwxyz0123456789".

(** [chars.charAt(Math.floor(Math.random() * chars.length))] *)
Definition random_char (pos : nat) : string :=
  JS.charAt chars
    (Qfloor (random pos * inject_Z (Z.of_nat (String.length chars)))%Q).

(** The [for] loop of [generateCode], [n] iterations left. *)
Fixpoint generateCode_for (n : nat) (shortCode : string) (pos : nat)
  : string * nat :=
  match n with
  | O => (shortCode, pos)
  | S n' => generateCode_for n' (shortCode ++ random_char pos) (S pos)
  end.

Definition generateCode (pos : nat) : string * nat :=
  generateCode_for 6 EmptyString pos.

(** The [do ... while (exists && attempts < 5)] loop of [POST /shorten]:
    the last candidate, what [findOne] said of it, the number of
    attempts made and the cursor after them. *)
Equations? generate_until_unique (c : Collection) (attempts pos : nat)
  : string * option Url * nat * nat by wf (5 - attempts) lt :=
generate_until_unique c attempts pos
  with Model.findOne (fst (generateCode pos)) c, lt_dec (S attempts) 5 => {
  | Some _, left _ =>
      generate_until_unique c (S attempts) (snd (generateCode pos));
  | exists_, _ =>
      (fst (generateCode pos), exists_, S attempts, snd (generateCode pos)) }.
Proof. do 5 (destruct attempts as [|attempts]; [lia|]). lia. Qed.

(** [await Url.create(...); res.redirect('/dashboard')] *)
Definition create_and_redirect (full short : string) (uid : nat) (w : World)
  : Response * World :=
  match Model.create full short uid (db w) with
  | Some c' => (redirect "/dashboard", mkWorld c' (rng w))
  | None => (rejected, w)
  end.

(** [let short = custom && custom.trim() ? custom.trim() : null] *)
Definition custom_alias (custom : option string) : option string :=
  if JS.truthy custom && JS.truthy (option_map JS.trim custom)
  then option_map JS.trim custom
  else None.

(** [app.post("/shorten", requireAuth, ...)]: the specification's
    [allocate].  [usr] is [req.user] reduced to its [id]. *)
Definition POST_shorten (usr : option nat) (fullUrl custom : option string)
    (w : World) : Response * World :=
  match usr with
  | None => (redirect "/login", w)
  | Some uid =>
      match fullUrl with
      | None => (redirect "/dashboard", w)
      | Some full =>
          if String.eqb full EmptyString then (redirect "/dashboard", w)
          else
            match custom_alias custom with
            | Some short =>
                match Model.findOne short (db w) with
                | Some _ => (AliasTaken, w)
                | None => create_and_redirect full short uid w
                end
            | None =>
                let '(short, exists_, _, pos) :=
                  generate_until_unique (db w) 0 (rng w) in
                let w' := mkWorld (db w) pos in
                match exists_ with
                | Some _ => (AllocationExhausted, w')
                | None => create_and_redirect full short uid w'
                end
            end
      end
  end.

(** [app.post('/delete/:id', requireAuth, ...)] *)
Definition POST_delete (usr : option nat) (id : nat) (w : World)
  : Response * World :=
  match usr with
  | None => (redirect "/login", w)
  | Some uid =>
      (redirect "/dashboard",
       mkWorld (Model.findOneAndDelete id uid (db w)) (rng w))
  end.

(** [app.get("/dashboard", requireAuth, ...)]; the [clickRate] string is
    left out of the rendered values. *)
Definition GET_dashboard (usr : option nat) (w : World) : Response * World :=
  match usr with
  | None => (redirect "/login", w)
  | Some uid =>
      let urls := Model.find_user uid (db w) in
      (render_dashboard urls
         (fold_left (fun sum url => sum + clicks url) urls 0)
         (List.length urls),
       w)
  end.

(** [app.get('/:short', ...)]: the specification's [resolveAndCount]. *)
Definition GET_short (short : string) (w : World) : Response * World :=
  match Model.findOne short (db w) with
  | None => (NotFound, w)
  | Some url =>
      (redirect (fullUrl url),
       mkWorld (Model.findByIdAndUpdate_inc (_id url) (db w)) (rng w))
  end.

(** *** Requests in flight

    A handler runs without interruption up to its next [await]; the
    awaited query is one atomic operation of the store; requests in
    flight take turns in any order. *)

Inductive Request :=
| post_shorten (usr : option nat) (fullUrl custom : option string)
| post_delete (usr : option nat) (id : nat)
| get_dashboard (usr : option nat)
| get_short (short : string).

Definition handle (r : Request) (w : World) : Response * World :=
  match r with
  | post_shorten usr fullUrl custom => POST_shorten usr fullUrl custom w
  | post_delete usr id => POST_delete usr id w
  | get_dashboard usr => GET_dashboard usr w
  | get_short short => GET_short short w
  end.

(** Where a request stands: not yet started, suspended at one of the
    [await]s of its handler with the query it issued, or answered. *)
Inductive Task :=
| arrived (r : Request)
| await_custom_findOne (full short : string) (uid : nat)
| await_random_findOne (full short : string) (uid attempts : nat)
| await_create (full short : string) (uid : nat)
| await_findOneAndDelete (id uid : nat)
| await_find (uid : nat)
| await_short_findOne (short : string)
| await_findByIdAndUpdate (url : Url)
| responded (res : Response).

(** The handler's code from its entry to its first [await]. *)
Definition start (r : Request) (w : World) : Task * World :=
  match r with
  | post_shorten None _ _ => (responded (redirect "/login"), w)
  | post_shorten (Some uid) fullUrl custom =>
      match fullUrl with
      | None => (responded (redirect "/dashboard"), w)
      | Some full =>
          if String.eqb full EmptyString
          then (responded (redirect "/dashboard"), w)
          else
            match custom_alias custom with
            | Some short => (await_custom_findOne full short uid, w)
            | None =>
                let '(short, pos) := generateCode (rng w) in
                (await_random_findOne full short uid 1, mkWorld (db w) pos)
            end
      end
  | post_delete None _ => (responded (redirect "/login"), w)
  | post_delete (Some uid) id => (await_findOneAndDelete id uid, w)
  | get_dashboard None => (responded (redirect "/login"), w)
  | get_dashboard (Some uid) => (await_find uid, w)
  | get_short short => (await_short_findOne short, w)
  end.

(** One turn of a request: the awaited query takes effect and the
    handler runs on to its next [await] or to its response. *)
Definition step_task (t : Task) (w : World) : Task * World :=
  match t with
  | arrived r => start r w
  | await_custom_findOne full short uid =>
      match Model.findOne short (db w) with
      | Some _ => (responded AliasTaken, w)
      | None => (await_create full short uid, w)
      end
  | await_random_findOne full short uid attempts =>
      match Model.findOne short (db w) with
      | Some _ =>
          if Nat.ltb attempts 5 then
            let '(short', pos) := generateCode (rng w) in
            (await_random_findOne full short' uid (S attempts),
             mkWorld (db w) pos)
          else (responded AllocationExhausted, w)
      | None => (await_create full short uid, w)
      end
  | await_create full short uid =>
      match Model.create full short uid (db w) with
      | Some c' => (responded (redirect "/dashboard"), mkWorld c' (rng w))
      | None => (responded rejected, w)
      end
  | await_findOneAndDelete id uid =>
      (responded (redirect "/dashboard"),
       mkWorld (Model.findOneAndDelete id uid (db w)) (rng w))
  | await_find uid =>
      let urls := Model.find_user uid (db w) in
      (responded
         (render_dashboard urls
            (fold_left (fun sum url => sum + clicks url) urls 0)
            (List.length urls)),
       w)
  | await_short_findOne short =>
      match Model.findOne short (db w) with
      | None => (responded NotFound, w)
      | Some url => (await_findByIdAndUpdate url, w)
      end
  | await_findByIdAndUpdate url =>
      (responded (redirect (fullUrl url)),
       mkWorld (Model.findByIdAndUpdate_inc (_id url) (db w)) (rng w))
  | responded res => (responded res, w)
  end.

(** The server with its requests in flight. *)
Definition Config : Type := World * list Task.

Fixpoint step_nth (i : nat) (ts : list Task) (w : World) {struct ts}
  : Config :=
  match ts with
  | [] => (w, [])
  | t :: ts' =>
      match i with
      | O => let '(t', w') := step_task t w in (w', t' :: ts')
      | S i' => let '(w', ts'') := step_nth i' ts' w in (w', t :: ts'')
      end
  end.

(** The request at position [i] takes one turn. *)
Definition step (i : nat) (cfg : Config) : Config :=
  step_nth i (snd cfg) (fst cfg).

(** A schedule names the request that takes each successive turn. *)
Definition run (sched : list nat) (cfg : Config) : Config :=
  fold_left (fun cfg i => step i cfg) sched cfg.

(** A request that has the server to itself. *)
Fixpoint run_alone (turns : nat) (t : Task) (w : World) : Task * World :=
  match turns with
  | O => (t, w)
  | S n => let '(t', w') := step_task t w in run_alone n t' w'
  end.

End Server.

Arguments chars : simpl never.

(** ** src/index.js: the prototype's [POST /shorten] *)

Module Prototype.

Record Url := mkUrl {
  originalUrl : string;
  shortId : string;
  shortUrl : string
}.

Inductive Response :=
| status_400 (error : string)      (* res.status(400).json({ error }) *)
| json (url : Url).                (* res.json(url) *)

Section Shorten.

(** [validator.isURL] and [shortid.generate] come from npm packages. *)
Variable isURL : string -> bool.
Variable generate : nat -> string.

Definition POST_shorten (original : string) (st : list Url * nat)
  : Response * (list Url * nat) :=
  if negb (isURL original) then (status_400 "Invalid URL", st)
  else
    match find (fun u => String.eqb (originalUrl u) original) (fst st) with
    | Some url => (json url, st)
    | None =>
        let id := generate (snd st) in
        let url := mkUrl original id ("http://localhost:5000/" ++ id) in
        (json url, ((fst st ++ [url])%list, S (snd st)))
    end.

End Shorten.

End Prototype.

(** ** Vocabulary of the properties *)

Definition isUpper (c : ascii) : bool :=
  let n := nat_of_ascii c in Nat.leb 65 n && Nat.leb n 90.
Definition isLower (c : ascii) : bool :=
  let n := nat_of_ascii c in Nat.leb 97 n && Nat.leb n 122.
Definition isDigit (c : ascii) : bool :=
  let n := nat_of_ascii c in Nat.leb 48 n && Nat.leb n 57.

(** The 62-symbol alphabet: uppercase letters, lowercase letters, digits. *)
Definition isAlnum (c : ascii) : bool := isUpper c || isLower c || isDigit c.

Fixpoint string_forall (p : ascii -> bool) (s : string) : bool :=
  match s with
  | EmptyString => true
  | String c s' => p c && string_forall p s'
  end.

(** The store's own guarantees: the unique index on [shortUrl], and
    [ObjectId]s that are distinct and older than the next fresh one. *)
Definition unique_codes (c : Collection) : Prop :=
  NoDup (map shortUrl (docs c)).

Definition wf (c : Collection) : Prop :=
  unique_codes c /\
  NoDup (map _id (docs c)) /\
  Forall (fun u => _id u < next_id c) (docs c).

(** The document with a given [_id], and its click count. *)
Definition findById (id : nat) (c : Collection) : option Url :=
  find (fun u => Nat.eqb (_id u) id) (docs c).

Definition clicks_of (id : nat) (c : Collection) : option nat :=
  option_map clicks (findById id c).

(** A custom alias that is absent, empty or made of whitespace only. *)
Definition blank (custom : option string) : Prop :=
  forall s, custom = Some s -> JS.trim s = EmptyString.

(** The candidates the random path draws when it starts with the cursor at
    [pos]: candidate [k] is read from the six tape cells from [pos + 6 * k]. *)
Definition candidate (random : nat -> Q) (pos k : nat) : string :=
  fst (generateCode random (pos + 6 * k)).

Definition taken (c : Collection) (short : string) : Prop :=
  Model.findOne short c <> None.

(** Requests in flight that will still count a hit on the document [id]
    reached through the code [short]. *)
Definition hits (short : string) (id : nat) (t : Task) : nat :=
  match t with
  | arrived (get_short s) => if String.eqb s short then 1 else 0
  | await_short_findOne s => if String.eqb s short then 1 else 0
  | await_findByIdAndUpdate url => if Nat.eqb (_id url) id then 1 else 0
  | _ => 0
  end.

Definition is_delete (r : Request) : bool :=
  match r with
  | post_delete _ _ => true
  | _ => false
  end.

Definition total_hits (short : string) (id : nat) (ts : list Task) : nat :=
  list_sum (map (hits short id) ts).

(** A request in flight that is not, and will not become, a delete. *)
Definition keeps_links (t : Task) : bool :=
  match t with
  | arrived r => negb (is_delete r)
  | await_findOneAndDelete _ _ => false
  | _ => true
  end.

(** The Link with this code, [_id] and target is in the store with [n]
    clicks. *)
Definition holds (short : string) (id : nat) (full : string)
    (c : Collection) (n : nat) : Prop :=
  exists u, In u (docs c) /\ shortUrl u = short /\ _id u = id /\
            fullUrl u = full /\ clicks u = n.

Definition is_get_short (short : string) (r : Request) : bool :=
  match r with
  | get_short s => String.eqb s short
  | _ => false
  end.

Definition is_responded (t : Task) : bool :=
  match t with
  | responded _ => true
  | _ => false
  end.

(** *** The policies the project documentation states

    PROJECT_DOCUMENTATION.md, "Security Measures", gives a
    [validateCustomAlias] and a [validateURL]; neither function exists in
    [server.js].  They are written here from the documentation's words, to
    compare the handler with. *)

Inductive AliasVerdict := Accepted | InvalidAlias | ReservedAlias.

Definition toLowerCase_char (c : ascii) : ascii :=
  if isUpper c then ascii_of_nat (nat_of_ascii c + 32) else c.

Fixpoint toLowerCase (s : string) : string :=
  match s with
  | EmptyString => EmptyString
  | String c s' => String (toLowerCase_char c) (toLowerCase s')
  end.

Definition reserved : list string :=
  ["api"; "admin"; "www"; "login"; "register"].

(** /^[a-zA-Z0-9-_]+$/ *)
Definition alias_char (c : ascii) : bool :=
  isAlnum c || Ascii.eqb c "-"%char || Ascii.eqb c "_"%char.

Definition documented_validateCustomAlias (alias : string) : AliasVerdict :=
  if negb (string_forall alias_char alias) || String.eqb alias EmptyString
  then InvalidAlias
  else if Nat.ltb (String.length alias) 2 || Nat.ltb 20 (String.length alias)
  then InvalidAlias
  else if existsb (String.eqb (toLowerCase alias)) reserved
  then ReservedAlias
  else Accepted.

(** [protocols: ['http', 'https'], require_protocol: true]: what any
    accepted URL must at least start with. *)
Definition documented_scheme (url : string) : bool :=
  String.prefix "http://" url || String.prefix "https://" url.

(** The state after a Link with code [short] has been added to [w], with
    the tape cursor at [pos]. *)
Definition created (full short : string) (uid : nat) (w : World) (pos : nat)
  : World :=
  mkWorld
    (mkCollection (docs (db w) ++ [mkUrl (next_id (db w)) full short uid 0])
       (S (next_id (db w))))
    pos.

(** A tape that walks through the alphabet: cell [n] selects the symbol
    [n mod 62]. *)
Definition tape_cycle : nat -> Q :=
  fun n => (inject_Z (Z.of_nat (n mod 62)) / 62)%Q.

(** A tape that always selects the first symbol. *)
Definition tape_zero : nat -> Q := fun _ => 0%Q.

(** Math.random() returns a number in [0, 1). *)
Definition unit_interval (random : nat -> Q) : Prop :=
  forall n, (0 <= random n)%Q /\ (random n < 1)%Q.

Definition empty_world : World := mkWorld (mkCollection [] 0) 0.

(** ** src/index.js: the prototype's [GET /:shortId] *)

Module PrototypeRedirect.

Inductive Response :=
| redirect (url : string)          (* res.redirect(url.originalUrl) *)
| status_404 (body : string).      (* res.status(404).json('URL not found') *)

Definition GET_shortId (id : string) (st : list Prototype.Url * nat)
  : Response :=
  match find (fun u => String.eqb (Prototype.shortId u) id) (fst st) with
  | Some url => redirect (Prototype.originalUrl url)
  | None => status_404 "URL not found"
  end.

End PrototypeRedirect.

(** ** server.js: accounts, cookies and routes *)

Module Account.

(** Modelled from the spec: [models/user.js] is not among the sources.  A
    document of the [users] collection has the fields [server.js] writes
    and reads, stored as given. *)
Record User := mkUser {
  _id : nat;
  name : string;
  email : string;
  password : string
}.

(** What [jwt.sign] is given and [jwt.verify] gives back:
    [{ id, name, email }]. *)
Record Payload := mkPayload {
  id : nat;
  payload_name : string;
  payload_email : string
}.

(** The whole server: the links and the tape, the users, and the number of
    [bcrypt.hash] calls made so far (each call draws its own salt). *)
Record Site := mkSite {
  world : World;
  users : list User;
  next_user : nat;
  bcrypt_calls : nat
}.

(** What a response does to the browser's [token] cookie. *)
Inductive Cookie :=
| untouched
| cookie_token (token : string)    (* res.cookie("token", token, ...) *)
| clearCookie_token.               (* res.clearCookie("token") *)

Inductive Reply :=
| answered (res : Response)                         (* the link handlers *)
| render_index (user : option Payload)              (* res.render("index", ...) *)
| render_form (view message : string) (user : option Payload)
| redirected (location : string).                   (* res.redirect(location) *)

(** The routes, in the order [server.js] declares them. *)
Inductive Route :=
| root
| dashboard
| shorten (fullUrl custom : option string)
| delete (id : nat)
| login_page
| login (email password : string)
| register_page
| register (name email password : string)
| logout
| short (code : string).

(** [User.findOne({ email })] *)
Definition findOne (e : string) (us : list User) : option User :=
  find (fun u => String.eqb (email u) e) us.

Section Server.

Variable random : nat -> Q.

(** [jwt.sign(payload, JWT_SECRET, { expiresIn: "1h" })];
    [jwt.verify(token, JWT_SECRET)], [None] when it throws;
    [bcrypt.hash(password, 10)] by call number; [bcrypt.compare]. *)
Variable sign : Payload -> string.
Variable verify : string -> option Payload.
Variable hash : nat -> string -> string.
Variable compare : string -> string -> bool.

(** [authMiddleware]: [req.user], and whether the cookie is cleared. *)
Definition authMiddleware (cookie : option string) : option Payload * bool :=
  if negb (JS.truthy cookie) then (None, false)
  else
    match cookie with
    | None => (None, false)
    | Some token =>
        match verify token with
        | Some decoded => (Some decoded, false)
        | None => (None, true)
        end
    end.

(** [app.post("/login", ...)] *)
Definition POST_login (usr : option Payload) (e p : string) (s : Site)
  : Reply * Cookie * Site :=
  match findOne e (users s) with
  | None => (render_form "login" "User not found" usr, untouched, s)
  | Some u =>
      if negb (compare p (password u))
      then (render_form "login" "Invalid credentials" usr, untouched, s)
      else
        (redirected "/dashboard",
         cookie_token (sign (mkPayload (_id u) (name u) (email u))),
         s)
  end.

(** [app.post("/register", ...)] *)
Definition POST_register (usr : option Payload) (n e p : string) (s : Site)
  : Reply * Cookie * Site :=
  match findOne e (users s) with
  | Some _ => (render_form "register" "Email already exists" usr, untouched, s)
  | None =>
      let hashed := hash (bcrypt_calls s) p in
      (redirected "/login", untouched,
       mkSite (world s)
         (users s ++ [mkUser (next_user s) n e hashed])%list
         (S (next_user s))
         (S (bcrypt_calls s)))
  end.

Definition link_handler (r : Request) (s : Site) : Reply * Site :=
  let '(res, w') := handle random r (world s) in
  (answered res, mkSite w' (users s) (next_user s) (bcrypt_calls s)).

(** One request through [app.use(authMiddleware)] and the route it
    matches.  [requireAuth] is the [None] case of the link handlers. *)
Definition serve (cookie : option string) (r : Route) (s : Site)
  : Reply * Cookie * Site :=
  let '(usr, cleared) := authMiddleware cookie in
  let ck := if cleared then clearCookie_token else untouched in
  let uid := option_map id usr in
  let links req := let '(rep, s') := link_handler req s in (rep, ck, s') in
  match r with
  | root => (render_index usr, ck, s)
  | dashboard => links (get_dashboard uid)
  | shorten fullUrl custom => links (post_shorten uid fullUrl custom)
  | delete i => links (post_delete uid i)
  | login_page => (render_form "login" "" usr, ck, s)
  | login e p =>
      let '(rep, set, s') := POST_login usr e p s in
      (rep, match set with untouched => ck | _ => set end, s')
  | register_page => (render_form "register" "" usr, ck, s)
  | register n e p =>
      let '(rep, _, s') := POST_register usr n e p s in (rep, ck, s')
  | logout => (redirected "/", clearCookie_token, s)
  | short code => links (get_short code)
  end.

(** The browser keeps, replaces or drops its [token] cookie. *)
Definition apply_cookie (c : Cookie) (jar : option string) : option string :=
  match c with
  | untouched => jar
  | cookie_token token => Some token
  | clearCookie_token => None
  end.

(** A browser sends its requests one after the other, each with the
    cookie the replies so far have left it. *)
Fixpoint browse (jar : option string) (rs : list Route) (s : Site)
  : list Reply * option string * Site :=
  match rs with
  | [] => ([], jar, s)
  | r :: rs' =>
      let '(rep, c, s') := serve jar r s in
      let '(reps, jar', s'') := browse (apply_cookie c jar) rs' s' in
      (rep :: reps, jar', s'')
  end.

End Server.

End Account.



(** *** Sample states *)

Definition link (id : nat) (full short : string) (uid n : nat) : Url :=
  mkUrl id full short uid n.

(** A store in which the first five candidates of [tape_cycle] are taken. *)
Definition crowded_world : World :=
  mkWorld
    (mkCollection
       [link 0 "https://a.example" "ABCDEF" 1 0;
        link 1 "https://b.example" "GHIJKL" 1 3;
        link 2 "https://c.example" "MNOPQR" 2 0;
        link 3 "https://d.example" "STUVWX" 2 1;
        link 4 "https://e.example" "YZabcd" 3 0]
       5)
    0.

(** A store in which only the first two are. *)
Definition busy_world : World :=
  mkWorld
    (mkCollection
       [link 0 "https://a.example" "ABCDEF" 1 0;
        link 1 "https://b.example" "GHIJKL" 1 3]
       2)
    0.

(** Two requests claim the alias "promo" at the same time, and a third
    asks for a random code. *)
Definition racing_requests : list Request :=
  [post_shorten (Some 1) (Some "https://one.example") (Some "promo");
   post_shorten (Some 2) (Some "https://two.example") (Some " promo ");
   post_shorten (Some 3) (Some "https://three.example") None].

(** Each of them runs to its [await] before any query is answered. *)
Definition racing_schedule : list nat := [0; 1; 2; 0; 1; 2; 0; 1; 2; 0; 1; 2].

(** Three visitors follow the link "GHIJKL" while a fourth request creates
    a Link, their turns interleaved. *)
Definition visiting_requests : list Request :=
  [get_short "GHIJKL";
   post_shorten (Some 3) (Some "https://three.example") (Some "promo");
   get_short "GHIJKL";
   get_short "GHIJKL"].

Definition visiting_schedule : list nat :=
  [0; 2; 3; 1; 0; 2; 3; 1; 0; 2; 3; 1; 1].

(** * Properties *)

Open Scope list_scope.

(** ** The code generator and the retry loop *)

Ltac tuple_eq :=
  repeat match goal with
         | |- (_, _) = (_, _) => apply f_equal2
         end;
  try reflexivity; try lia.

Section Loop.

Variable random : nat -> Q.

Lemma generateCode_cursor pos : snd (generateCode random pos) = pos + 6.
Proof.
  unfold generateCode. cbn [generateCode_for snd]. lia.
Qed.

Lemma loop_free c attempts pos :
  Model.findOne (fst (generateCode random pos)) c = None ->
  generate_until_unique random c attempts pos
  = (fst (generateCode random pos), None, S attempts,
     snd (generateCode random pos)).
Proof.
  intros Hfree. simp generate_until_unique. rewrite Hfree.
  destruct (lt_dec (S attempts) 5); reflexivity.
Qed.

Lemma loop_again c attempts pos u :
  Model.findOne (fst (generateCode random pos)) c = Some u ->
  S attempts < 5 ->
  generate_until_unique random c attempts pos
  = generate_until_unique random c (S attempts) (snd (generateCode random pos)).
Proof.
  intros Htaken Hlt. rewrite generate_until_unique_equation_1 at 1.
  rewrite Htaken. unfold generate_until_unique_unfold_clause_1.
  destruct (lt_dec (S attempts) 5); [reflexivity | contradiction].
Qed.

Lemma loop_give_up c attempts pos u :
  Model.findOne (fst (generateCode random pos)) c = Some u ->
  ~ S attempts < 5 ->
  generate_until_unique random c attempts pos
  = (fst (generateCode random pos), Some u, S attempts,
     snd (generateCode random pos)).
Proof.
  intros Htaken Hge. simp generate_until_unique. rewrite Htaken.
  destruct (lt_dec (S attempts) 5); [contradiction | reflexivity].
Qed.

Lemma candidate_shift pos j :
  candidate random (pos + 6) j = candidate random pos (S j).
Proof.
  unfold candidate. do 2 f_equal. lia.
Qed.

Lemma candidate_zero pos : candidate random pos 0 = fst (generateCode random pos).
Proof.
  unfold candidate. do 2 f_equal. lia.
Qed.

Lemma loop_first_free c k : forall attempts pos,
  attempts + k < 5 ->
  (forall j, j < k -> taken c (candidate random pos j)) ->
  Model.findOne (candidate random pos k) c = None ->
  generate_until_unique random c attempts pos
  = (candidate random pos k, None, attempts + k + 1, pos + 6 * (k + 1)).
Proof.
  induction k as [|k IH]; intros attempts pos Hlt Htaken Hfree.
  - rewrite candidate_zero in Hfree. rewrite (loop_free _ _ _ Hfree).
    rewrite candidate_zero, generateCode_cursor. tuple_eq.
  - assert (H0 : taken c (candidate random pos 0)) by (apply Htaken; lia).
    unfold taken in H0. rewrite candidate_zero in H0.
    destruct (Model.findOne (fst (generateCode random pos)) c) as [u|] eqn:E;
      [|congruence].
    rewrite (loop_again _ _ _ u E) by lia.
    rewrite generateCode_cursor, IH.
    + rewrite candidate_shift. tuple_eq.
    + lia.
    + intros j Hj. rewrite candidate_shift. apply Htaken. lia.
    + rewrite candidate_shift. exact Hfree.
Qed.

Lemma loop_all_taken c n : forall attempts pos,
  attempts + S n = 5 ->
  (forall j, j <= n -> taken c (candidate random pos j)) ->
  exists u,
    Model.findOne (candidate random pos n) c = Some u /\
    generate_until_unique random c attempts pos
    = (candidate random pos n, Some u, 5, pos + 6 * S n).
Proof.
  induction n as [|n IH]; intros attempts pos Hsum Htaken.
  - assert (H0 : taken c (candidate random pos 0)) by (apply Htaken; lia).
    unfold taken in H0. rewrite candidate_zero in *.
    destruct (Model.findOne (fst (generateCode random pos)) c) as [u|] eqn:E;
      [|congruence].
    exists u. split; [reflexivity|].
    rewrite (loop_give_up _ _ _ u E) by lia.
    rewrite generateCode_cursor. tuple_eq.
  - assert (H0 : taken c (candidate random pos 0)) by (apply Htaken; lia).
    unfold taken in H0. rewrite candidate_zero in H0.
    destruct (Model.findOne (fst (generateCode random pos)) c) as [u|] eqn:E;
      [|congruence].
    rewrite (loop_again _ _ _ u E) by lia.
    rewrite generateCode_cursor.
    destruct (IH (S attempts) (pos + 6)) as [u' [Hu' Hloop]].
    + lia.
    + intros j Hj. rewrite candidate_shift. apply Htaken. lia.
    + exists u'. rewrite candidate_shift in Hu', Hloop. split; [exact Hu'|].
      rewrite Hloop. tuple_eq.
Qed.

(** Whatever the store answers, the loop stops after at most five
    attempts, each of which reads six tape cells. *)
Lemma loop_attempts c m : forall attempts pos,
  attempts + S m = 5 ->
  let '(_, _, n, pos') := generate_until_unique random c attempts pos in
  attempts < n <= 5 /\ pos' = pos + 6 * (n - attempts).
Proof.
  induction m as [|m IH]; intros attempts pos Hsum;
    destruct (Model.findOne (fst (generateCode random pos)) c) as [u|] eqn:E.
  - rewrite (loop_give_up _ _ _ u E) by lia. rewrite generateCode_cursor. lia.
  - rewrite (loop_free _ _ _ E). rewrite generateCode_cursor. lia.
  - rewrite (loop_again _ _ _ u E) by lia. rewrite generateCode_cursor.
    specialize (IH (S attempts) (pos + 6) ltac:(lia)).
    destruct (generate_until_unique random c (S attempts) (pos + 6))
      as [[[short e] n] pos'].
    lia.
  - rewrite (loop_free _ _ _ E). rewrite generateCode_cursor. lia.
Qed.

End Loop.

(** ** Store lemmas *)

Lemma findOne_existsb short c :
  Model.findOne short c = None ->
  existsb (fun u => String.eqb (shortUrl u) short) (docs c) = false.
Proof.
  unfold Model.findOne. induction (docs c) as [|u l IH]; simpl; [reflexivity|].
  destruct (String.eqb (shortUrl u) short); [discriminate | exact IH].
Qed.

Lemma findOne_In short c u :
  Model.findOne short c = Some u -> In u (docs c) /\ shortUrl u = short.
Proof.
  unfold Model.findOne. intros H. apply find_some in H.
  destruct H as [Hin Heq]. apply String.eqb_eq in Heq. auto.
Qed.

Lemma findOne_None_iff short c :
  Model.findOne short c = None <->
  ~ exists u, In u (docs c) /\ shortUrl u = short.
Proof.
  unfold Model.findOne. split.
  - intros H [u [Hin Heq]].
    pose proof (find_none _ _ H u Hin) as Hn. simpl in Hn.
    apply String.eqb_neq in Hn. contradiction.
  - intros H. destruct (find _ (docs c)) as [u|] eqn:E; [|reflexivity].
    exfalso. apply H. exists u. apply find_some in E.
    destruct E as [Hin Heq]. apply String.eqb_eq in Heq. auto.
Qed.

Lemma create_free full short uid c :
  Model.findOne short c = None ->
  Model.create full short uid c
  = Some (mkCollection (docs c ++ [mkUrl (next_id c) full short uid 0])
            (S (next_id c))).
Proof.
  intros H. unfold Model.create. rewrite (findOne_existsb _ _ H). reflexivity.
Qed.

Lemma findOne_created full short uid c :
  Model.findOne short c = None ->
  Model.findOne short
    (mkCollection (docs c ++ [mkUrl (next_id c) full short uid 0])
       (S (next_id c)))
  = Some (mkUrl (next_id c) full short uid 0).
Proof.
  unfold Model.findOne. simpl. induction (docs c) as [|u l IH]; simpl.
  - rewrite String.eqb_refl. reflexivity.
  - destruct (String.eqb (shortUrl u) short); [discriminate | exact IH].
Qed.

(** ** The custom alias expression *)

Lemma custom_alias_blank custom : blank custom -> custom_alias custom = None.
Proof.
  unfold blank, custom_alias. destruct custom as [s|]; [|reflexivity].
  intros H. simpl. rewrite (H s eq_refl). simpl.
  rewrite andb_false_r. reflexivity.
Qed.

Lemma trim_empty : JS.trim EmptyString = EmptyString.
Proof. reflexivity. Qed.

Lemma custom_alias_trim s :
  JS.trim s <> EmptyString -> custom_alias (Some s) = Some (JS.trim s).
Proof.
  intros H. unfold custom_alias. simpl.
  assert (Hs : String.eqb s EmptyString = false).
  { apply String.eqb_neq. intros ->. apply H. reflexivity. }
  apply String.eqb_neq in H. rewrite Hs, H. reflexivity.
Qed.

Lemma custom_alias_cases custom :
  (blank custom /\ custom_alias custom = None) \/
  (exists s, custom = Some s /\ JS.trim s <> EmptyString /\
             custom_alias custom = Some (JS.trim s)).
Proof.
  destruct custom as [s|].
  - destruct (String.eqb (JS.trim s) EmptyString) eqn:E.
    + apply String.eqb_eq in E. left.
      assert (Hb : blank (Some s)) by (intros s' [= <-]; exact E).
      split; [exact Hb | apply custom_alias_blank, Hb].
    + apply String.eqb_neq in E. right. exists s.
      repeat split; [exact E | apply custom_alias_trim, E].
  - left. split; [intros s [=] | reflexivity].
Qed.

(** ** [POST /shorten], one request at a time *)

Lemma POST_shorten_random random uid full custom w :
  full <> EmptyString ->
  custom_alias custom = None ->
  POST_shorten random (Some uid) (Some full) custom w
  = let '(short, exists_, _, pos) :=
      generate_until_unique random (db w) 0 (rng w) in
    match exists_ with
    | Some _ => (AllocationExhausted, mkWorld (db w) pos)
    | None => create_and_redirect full short uid (mkWorld (db w) pos)
    end.
Proof.
  intros Hfull Hcustom. unfold POST_shorten.
  apply String.eqb_neq in Hfull. rewrite Hfull, Hcustom. reflexivity.
Qed.

Lemma POST_shorten_custom random uid full custom short w :
  full <> EmptyString ->
  custom_alias custom = Some short ->
  POST_shorten random (Some uid) (Some full) custom w
  = match Model.findOne short (db w) with
    | Some _ => (AliasTaken, w)
    | None => (redirect "/dashboard", created full short uid w (rng w))
    end.
Proof.
  intros Hfull Hcustom. unfold POST_shorten.
  apply String.eqb_neq in Hfull. rewrite Hfull, Hcustom.
  destruct (Model.findOne short (db w)) eqn:E; [reflexivity|].
  unfold create_and_redirect. rewrite (create_free _ _ _ _ E). reflexivity.
Qed.

Lemma POST_shorten_exhausted random uid full custom w :
  full <> EmptyString ->
  custom_alias custom = None ->
  (forall j, j < 5 -> taken (db w) (candidate random (rng w) j)) ->
  POST_shorten random (Some uid) (Some full) custom w
  = (AllocationExhausted, mkWorld (db w) (rng w + 30)).
Proof.
  intros Hfull Hcustom Htaken.
  rewrite POST_shorten_random by assumption.
  destruct (loop_all_taken random (db w) 4 0 (rng w)) as [u [_ Hloop]].
  - reflexivity.
  - intros j Hj. apply Htaken. lia.
  - rewrite Hloop. reflexivity.
Qed.

Lemma POST_shorten_first_free random uid full custom w k :
  full <> EmptyString ->
  custom_alias custom = None ->
  k < 5 ->
  (forall j, j < k -> taken (db w) (candidate random (rng w) j)) ->
  ~ taken (db w) (candidate random (rng w) k) ->
  POST_shorten random (Some uid) (Some full) custom w
  = (redirect "/dashboard",
     created full (candidate random (rng w) k) uid w (rng w + 6 * (k + 1))).
Proof.
  intros Hfull Hcustom Hk Htaken Hfree.
  assert (Hnone : Model.findOne (candidate random (rng w) k) (db w) = None).
  { unfold taken in Hfree.
    destruct (Model.findOne (candidate random (rng w) k) (db w));
      [exfalso; apply Hfree; discriminate | reflexivity]. }
  rewrite POST_shorten_random by assumption.
  rewrite (loop_first_free random (db w) k 0 (rng w)) by (assumption || lia).
  unfold create_and_redirect. simpl db.
  rewrite (create_free _ _ _ _ Hnone). reflexivity.
Qed.

(** ** The generated code *)

Lemma string_forall_app p s t :
  string_forall p (s ++ t)%string = string_forall p s && string_forall p t.
Proof.
  induction s as [|c s IH]; simpl; [reflexivity|].
  rewrite IH, andb_assoc. reflexivity.
Qed.

Lemma length_app s t : String.length (s ++ t)%string = String.length s + String.length t.
Proof.
  induction s as [|c s IH]; simpl; [reflexivity | rewrite IH; reflexivity].
Qed.

Lemma chars_alnum n :
  n < 62 ->
  exists c, String.get n chars = Some c /\ isAlnum c = true.
Proof.
  intros H.
  do 62 (destruct n as [|n]; [eexists; split; reflexivity|]).
  lia.
Qed.

Lemma chars_length : String.length chars = 62.
Proof. reflexivity. Qed.

Section Generator.

Variable random : nat -> Q.
Hypothesis random_range : unit_interval random.

Lemma random_index pos :
  (0 <= Qfloor (random pos * inject_Z (Z.of_nat (String.length chars))) < 62)%Z.
Proof.
  rewrite chars_length. destruct (random_range pos) as [H0 H1].
  change (inject_Z (Z.of_nat 62)) with (inject_Z 62).
  split.
  - assert (Hq : (0 * inject_Z 62 <= random pos * inject_Z 62)%Q)
      by (apply Qmult_le_compat_r; [exact H0 | discriminate]).
    apply Qfloor_resp_le in Hq. exact Hq.
  - apply Z.lt_nge. intros Hge.
    assert (Hq : (inject_Z 62 <= random pos * inject_Z 62)%Q).
    { eapply Qle_trans; [|apply Qfloor_le]. rewrite <- Zle_Qle. exact Hge. }
    assert (Hlt : (random pos * inject_Z 62 < 1 * inject_Z 62)%Q).
    { apply Qmult_lt_compat_r; [reflexivity | exact H1]. }
    rewrite Qmult_1_l in Hlt.
    exact (Qlt_not_le _ _ Hlt Hq).
Qed.

Lemma random_char_alnum pos :
  exists c, random_char random pos = String c EmptyString /\ isAlnum c = true.
Proof.
  unfold random_char, JS.charAt. pose proof (random_index pos) as [H0 H1].
  destruct (Z.ltb_spec (Qfloor (random pos * inject_Z (Z.of_nat (String.length chars)))) 0);
    [lia|].
  destruct (chars_alnum (Z.to_nat (Qfloor (random pos * inject_Z (Z.of_nat (String.length chars))))))
    as [c [Hget Hc]]; [lia|].
  rewrite Hget. exists c. auto.
Qed.

Lemma generateCode_for_alnum n : forall acc pos,
  string_forall isAlnum acc = true ->
  String.length (fst (generateCode_for random n acc pos)) = String.length acc + n /\
  string_forall isAlnum (fst (generateCode_for random n acc pos)) = true.
Proof.
  induction n as [|n IH]; intros acc pos Hacc; simpl.
  - split; [lia | exact Hacc].
  - destruct (random_char_alnum pos) as [c [Hc Hal]].
    destruct (IH (acc ++ random_char random pos)%string (S pos)) as [Hlen Hall].
    + rewrite string_forall_app, Hacc, Hc. simpl. rewrite Hal. reflexivity.
    + split; [|exact Hall]. rewrite Hlen, length_app, Hc. simpl. lia.
Qed.

Lemma generateCode_alnum pos :
  String.length (fst (generateCode random pos)) = 6 /\
  string_forall isAlnum (fst (generateCode random pos)) = true.
Proof.
  apply (generateCode_for_alnum 6 EmptyString pos). reflexivity.
Qed.

End Generator.

(** ** [trim] *)

Lemma trimEnd_cons c s :
  JS.isWhiteSpace c = false ->
  JS.trimEnd (String c s) = String c (JS.trimEnd s).
Proof.
  intros H. simpl. rewrite H. destruct (JS.trimEnd s); reflexivity.
Qed.

Lemma trimEnd_idempotent s : JS.trimEnd (JS.trimEnd s) = JS.trimEnd s.
Proof.
  induction s as [|c s IH]; [reflexivity|].
  simpl. destruct (JS.trimEnd s) as [|a t] eqn:E.
  - destruct (JS.isWhiteSpace c) eqn:Hc; [reflexivity|].
    simpl. rewrite Hc. reflexivity.
  - change (JS.trimEnd (String c (String a t)))
      with (match JS.trimEnd (String a t) with
            | EmptyString =>
                if JS.isWhiteSpace c then EmptyString else String c EmptyString
            | t' => String c t'
            end).
    rewrite IH. reflexivity.
Qed.

Lemma trimStart_clean s :
  match JS.trimStart s with
  | EmptyString => True
  | String c _ => JS.isWhiteSpace c = false
  end.
Proof.
  induction s as [|c s IH]; simpl; [exact I|].
  destruct (JS.isWhiteSpace c) eqn:Hc; [exact IH | exact Hc].
Qed.

Lemma trim_idempotent s : JS.trim (JS.trim s) = JS.trim s.
Proof.
  unfold JS.trim. pose proof (trimStart_clean s) as H.
  destruct (JS.trimStart s) as [|c t]; [reflexivity|].
  rewrite (trimEnd_cons _ _ H). simpl JS.trimStart. rewrite H.
  rewrite <- (trimEnd_cons _ _ H). apply trimEnd_idempotent.
Qed.

Lemma trim_clean s :
  match JS.trim s with
  | EmptyString => True
  | String c _ => JS.isWhiteSpace c = false
  end.
Proof.
  unfold JS.trim. pose proof (trimStart_clean s) as H.
  destruct (JS.trimStart s) as [|c t]; [exact I|].
  rewrite (trimEnd_cons _ _ H). exact H.
Qed.

Lemma trimEnd_no_whitespace s :
  string_forall (fun c => negb (JS.isWhiteSpace c)) s = true ->
  JS.trimEnd s = s.
Proof.
  induction s as [|c s IH]; [reflexivity|].
  simpl string_forall. intros H. apply andb_prop in H. destruct H as [Hc Hs].
  apply negb_true_iff in Hc. rewrite (trimEnd_cons _ _ Hc), (IH Hs).
  reflexivity.
Qed.

Lemma trim_no_whitespace s :
  string_forall (fun c => negb (JS.isWhiteSpace c)) s = true ->
  JS.trim s = s.
Proof.
  intros H. unfold JS.trim.
  assert (Hs : JS.trimStart s = s).
  { destruct s as [|c s]; [reflexivity|]. simpl in H |- *.
    apply andb_prop in H. destruct H as [Hc _].
    apply negb_true_iff in Hc. rewrite Hc. reflexivity. }
  rewrite Hs. apply trimEnd_no_whitespace, H.
Qed.

Lemma alnum_not_whitespace c :
  isAlnum c = true -> negb (JS.isWhiteSpace c) = true.
Proof.
  destruct c as [[] [] [] [] [] [] [] []]; vm_compute; intros H;
    first [reflexivity | discriminate H].
Qed.

Lemma string_forall_impl (p q : ascii -> bool) s :
  (forall c, p c = true -> q c = true) ->
  string_forall p s = true -> string_forall q s = true.
Proof.
  intros Hpq. induction s as [|c s IH]; simpl; [reflexivity|].
  intros H. apply andb_prop in H. destruct H as [Hc Hs].
  rewrite (Hpq c Hc), (IH Hs). reflexivity.
Qed.

Lemma trimStart_decompose s :
  exists l, s = (l ++ JS.trimStart s)%string /\
            string_forall JS.isWhiteSpace l = true.
Proof.
  induction s as [|c s [l [Hl Hws]]]; [exists EmptyString; auto|].
  simpl. destruct (JS.isWhiteSpace c) eqn:Hc.
  - exists (String c l). simpl. rewrite Hc, Hws, <- Hl. auto.
  - exists EmptyString. auto.
Qed.

Lemma trimEnd_decompose s :
  exists r, s = (JS.trimEnd s ++ r)%string /\
            string_forall JS.isWhiteSpace r = true.
Proof.
  induction s as [|c s [r [Hr Hws]]]; [exists EmptyString; auto|].
  simpl. destruct (JS.trimEnd s) as [|a t] eqn:E.
  - simpl in Hr. subst r. destruct (JS.isWhiteSpace c) eqn:Hc.
    + exists (String c s). simpl. rewrite Hc, Hws. auto.
    + exists s. auto.
  - exists r. split; [|exact Hws]. simpl. f_equal. exact Hr.
Qed.

(** [trim s] is [s] without a run of whitespace at each end, and neither
    begins nor ends with whitespace. *)
Lemma trim_decompose s :
  exists l r, s = (l ++ JS.trim s ++ r)%string /\
              string_forall JS.isWhiteSpace l = true /\
              string_forall JS.isWhiteSpace r = true.
Proof.
  destruct (trimStart_decompose s) as [l [Hl Hlws]].
  destruct (trimEnd_decompose (JS.trimStart s)) as [r [Hr Hrws]].
  exists l, r. unfold JS.trim. rewrite <- Hr, <- Hl. auto.
Qed.

Lemma trimEnd_clean s : forall t c,
  JS.trimEnd s = (t ++ String c EmptyString)%string ->
  JS.isWhiteSpace c = false.
Proof.
  induction s as [|a s IH]; intros t c H.
  - destruct t; discriminate H.
  - simpl in H. destruct (JS.trimEnd s) as [|b t'] eqn:E.
    + destruct (JS.isWhiteSpace a) eqn:Ha; [destruct t; discriminate H|].
      destruct t as [|a' t]; simpl in H.
      * injection H as <-. exact Ha.
      * injection H as _ H. destruct t; discriminate H.
    + destruct t as [|a' t]; simpl in H; [discriminate H|].
      injection H as _ H. exact (IH t c H).
Qed.

Lemma trim_clean_end s t c :
  JS.trim s = (t ++ String c EmptyString)%string -> JS.isWhiteSpace c = false.
Proof.
  apply trimEnd_clean.
Qed.

Lemma trim_alnum s : string_forall isAlnum s = true -> JS.trim s = s.
Proof.
  intros H. apply trim_no_whitespace.
  exact (string_forall_impl _ _ s alnum_not_whitespace H).
Qed.

Lemma custom_alias_code s :
  s <> EmptyString -> JS.trim s = s -> custom_alias (Some s) = Some s.
Proof.
  intros Hne Htrim. rewrite custom_alias_trim; rewrite Htrim; auto.
Qed.

(** ** Properties of [POST /shorten] *)

(** C2.  On the random path the handler makes at most five
    generate-then-[findOne] attempts, each reading six tape cells.  When the
    store holds all of the first five candidates the response is
    [AllocationExhausted], the store is unchanged and the cursor has moved
    by exactly five candidates; when candidate [k] (counting from 0, below
    5) is the first one the store does not hold, the Link is created with
    that candidate as its code. *)
Theorem random_path_retries_at_most_five
    random uid full custom (w : World) :
  full <> EmptyString ->
  blank custom ->
  (let '(_, _, n, pos) := generate_until_unique random (db w) 0 (rng w) in
   1 <= n <= 5 /\ pos = rng w + 6 * n) /\
  ((forall j, j < 5 -> taken (db w) (candidate random (rng w) j)) ->
   POST_shorten random (Some uid) (Some full) custom w
   = (AllocationExhausted, mkWorld (db w) (rng w + 6 * 5))) /\
  (forall k, k < 5 ->
   (forall j, j < k -> taken (db w) (candidate random (rng w) j)) ->
   ~ taken (db w) (candidate random (rng w) k) ->
   POST_shorten random (Some uid) (Some full) custom w
   = (redirect "/dashboard",
      created full (candidate random (rng w) k) uid w (rng w + 6 * (k + 1)))).
Proof.
  intros Hfull Hblank. apply custom_alias_blank in Hblank.
  split; [|split].
  - pose proof (loop_attempts random (db w) 4 0 (rng w) eq_refl) as H.
    destruct (generate_until_unique random (db w) 0 (rng w))
      as [[[short e] n] pos].
    destruct H as [Hn Hpos]. split; [lia|]. rewrite Hpos. f_equal. lia.
  - intros Htaken. apply POST_shorten_exhausted; assumption.
  - intros k Hk Htaken Hfree. apply POST_shorten_first_free; assumption.
Qed.

Lemma random_path_retries_at_most_five_witness :
  POST_shorten tape_cycle (Some 7) (Some "https://example.com") None
    crowded_world
  = (AllocationExhausted, mkWorld (db crowded_world) 30) /\
  POST_shorten tape_cycle (Some 7) (Some "https://example.com") (Some "  ")
    busy_world
  = (redirect "/dashboard",
     created "https://example.com" "MNOPQR" 7 busy_world 18).
Proof.
  split.
  - refine (proj1 (proj2 (random_path_retries_at_most_five tape_cycle 7
      "https://example.com" None crowded_world _ _)) _).
    + discriminate.
    + intros s H. discriminate H.
    + intros j Hj.
      do 5 (destruct j as [|j]; [vm_compute; discriminate|]). lia.
  - refine (proj2 (proj2 (random_path_retries_at_most_five tape_cycle 7
      "https://example.com" (Some "  ") busy_world _ _)) 2 _ _ _).
    + discriminate.
    + intros s H. injection H as <-. reflexivity.
    + lia.
    + intros j Hj.
      do 2 (destruct j as [|j]; [vm_compute; discriminate|]). lia.
    + vm_compute. intros H. apply H. reflexivity.
Defined.

(** C10.  A custom alias that is absent, empty or whitespace only sends the
    request down the random path, exactly as if none had been supplied.  A
    non-blank alias is trimmed first: the availability check is made on the
    trimmed value and the trimmed value is the code of the Link created.
    The trimmed value is the alias without a run of whitespace at each
    end. *)
Theorem blank_alias_falls_back_to_random
    random usr fullUrl custom (w : World) :
  (blank custom ->
   POST_shorten random usr fullUrl custom w
   = POST_shorten random usr fullUrl None w) /\
  (forall s uid full,
   custom = Some s -> JS.trim s <> EmptyString ->
   usr = Some uid -> fullUrl = Some full -> full <> EmptyString ->
   POST_shorten random usr fullUrl custom w
   = match Model.findOne (JS.trim s) (db w) with
     | Some _ => (AliasTaken, w)
     | None => (redirect "/dashboard", created full (JS.trim s) uid w (rng w))
     end) /\
  (forall s,
   (exists l r, s = (l ++ JS.trim s ++ r)%string /\
                string_forall JS.isWhiteSpace l = true /\
                string_forall JS.isWhiteSpace r = true) /\
   (forall c t, JS.trim s = String c t -> JS.isWhiteSpace c = false) /\
   (forall t c, JS.trim s = (t ++ String c EmptyString)%string ->
                JS.isWhiteSpace c = false)).
Proof.
  split; [|split].
  - intros Hblank. unfold POST_shorten.
    rewrite (custom_alias_blank _ Hblank). reflexivity.
  - intros s uid full -> Htrim -> -> Hfull.
    apply POST_shorten_custom; [exact Hfull | apply custom_alias_trim, Htrim].
  - intros s. split; [apply trim_decompose|]. split.
    + intros c t H. pose proof (trim_clean s) as Hc. rewrite H in Hc. exact Hc.
    + apply trim_clean_end.
Qed.

Lemma blank_alias_falls_back_to_random_witness :
  POST_shorten tape_cycle (Some 7) (Some "https://example.com") (Some "   ")
    busy_world
  = POST_shorten tape_cycle (Some 7) (Some "https://example.com") None
      busy_world /\
  POST_shorten tape_cycle (Some 7) (Some "https://example.com")
    (Some "  my-link ") busy_world
  = (redirect "/dashboard",
     created "https://example.com" "my-link" 7 busy_world 0).
Proof.
  split.
  - refine (proj1 (blank_alias_falls_back_to_random tape_cycle (Some 7)
      (Some "https://example.com") (Some "   ") busy_world) _).
    intros s H. injection H as <-. reflexivity.
  - refine (proj1 (proj2 (blank_alias_falls_back_to_random tape_cycle (Some 7)
      (Some "https://example.com") (Some "  my-link ") busy_world))
      "  my-link " 7 "https://example.com" eq_refl _ eq_refl eq_refl _).
    + discriminate.
    + discriminate.
Defined.

(** C7.  When the store already holds a Link whose code is the (trimmed)
    custom alias, the request is answered [AliasTaken] and the state is
    returned unchanged.  So a second request with the same custom alias is
    always refused, whatever the first one answered, and so is a request
    whose alias is a code the random path has just claimed. *)
Theorem taken_alias_is_refused random :
  (forall (w : World) uid full custom short u,
     full <> EmptyString ->
     custom_alias custom = Some short ->
     Model.findOne short (db w) = Some u ->
     POST_shorten random (Some uid) (Some full) custom w = (AliasTaken, w)) /\
  (forall (w w1 : World) uid1 uid2 full1 full2 custom res,
     full1 <> EmptyString -> full2 <> EmptyString ->
     ~ blank custom ->
     POST_shorten random (Some uid1) (Some full1) custom w = (res, w1) ->
     POST_shorten random (Some uid2) (Some full2) custom w1 = (AliasTaken, w1)) /\
  (forall (w : World) uid1 uid2 full1 full2 pos pos',
     unit_interval random ->
     full2 <> EmptyString ->
     Model.findOne (fst (generateCode random pos)) (db w) = None ->
     let code := fst (generateCode random pos) in
     let w1 := created full1 code uid1 w pos' in
     POST_shorten random (Some uid2) (Some full2) (Some code) w1
     = (AliasTaken, w1)).
Proof.
  split; [|split].
  - intros w uid full custom short u Hfull Hcustom Hfound.
    rewrite (POST_shorten_custom _ _ _ _ short) by assumption.
    rewrite Hfound. reflexivity.
  - intros w w1 uid1 uid2 full1 full2 custom res Hfull1 Hfull2 Hnb Hfirst.
    destruct (custom_alias_cases custom) as [[Hb _] | [s [-> [Htrim Hcustom]]]];
      [contradiction|].
    rewrite (POST_shorten_custom _ _ _ _ _ _ Hfull1 Hcustom) in Hfirst.
    rewrite (POST_shorten_custom _ _ _ _ _ _ Hfull2 Hcustom).
    destruct (Model.findOne (JS.trim s) (db w)) as [u|] eqn:E.
    + injection Hfirst as _ <-. rewrite E. reflexivity.
    + injection Hfirst as _ <-. unfold created at 1. simpl db.
      rewrite (findOne_created _ _ _ _ E). reflexivity.
  - intros w uid1 uid2 full1 full2 pos pos' Hrange Hfull2 Hfree code w1.
    destruct (generateCode_alnum random Hrange pos) as [Hlen Hall].
    fold code in Hlen, Hall, Hfree.
    assert (Hne : code <> EmptyString) by (intros E; rewrite E in Hlen; discriminate).
    rewrite (POST_shorten_custom _ _ _ _ code).
    + unfold w1, created. simpl db.
      rewrite (findOne_created _ _ _ _ Hfree). reflexivity.
    + exact Hfull2.
    + apply custom_alias_code; [exact Hne | apply trim_alnum, Hall].
Qed.

Lemma taken_alias_is_refused_witness :
  POST_shorten tape_cycle (Some 9) (Some "https://other.example")
    (Some " GHIJKL") busy_world
  = (AliasTaken, busy_world).
Proof.
  refine (proj1 (taken_alias_is_refused tape_cycle) busy_world 9
    "https://other.example" (Some " GHIJKL") "GHIJKL"
    (link 1 "https://b.example" "GHIJKL" 1 3) _ _ _).
  - discriminate.
  - reflexivity.
  - reflexivity.
Defined.

(** C1.  The handler applies no alias policy.  Each of the four aliases the
    documented policy rejects ("a", "admin", a 21-character alias,
    "bad alias!") is claimed on the empty store like any other, just as
    "ab" and "my_link-1" are. *)
Theorem custom_alias_is_not_validated random :
  let full := "https://example.com" in
  let accepted alias :=
    POST_shorten random (Some 7) (Some full) (Some alias) empty_world
    = (redirect "/dashboard", created full alias 7 empty_world 0) in
  (documented_validateCustomAlias "a" = InvalidAlias /\ accepted "a") /\
  (documented_validateCustomAlias "admin" = ReservedAlias /\ accepted "admin") /\
  (documented_validateCustomAlias "aaaaaaaaaaaaaaaaaaaaa" = InvalidAlias /\
   accepted "aaaaaaaaaaaaaaaaaaaaa") /\
  (documented_validateCustomAlias "bad alias!" = InvalidAlias /\
   accepted "bad alias!") /\
  (documented_validateCustomAlias "ab" = Accepted /\ accepted "ab") /\
  (documented_validateCustomAlias "my_link-1" = Accepted /\
   accepted "my_link-1").
Proof.
  cbv zeta. repeat split; reflexivity.
Qed.

(** C4.  The handler checks only that [fullUrl] is present and non-empty.
    A target with another scheme, or one that is no URL at all, is stored,
    and the redirect handler then sends visitors to it. *)
Theorem target_url_is_not_validated random :
  let stored full :=
    POST_shorten random (Some 7) (Some full) (Some "x1") empty_world
    = (redirect "/dashboard", created full "x1" 7 empty_world 0) /\
    fst (GET_short "x1" (created full "x1" 7 empty_world 0)) = redirect full in
  (documented_scheme "javascript:alert(1)" = false /\
   stored "javascript:alert(1)") /\
  (documented_scheme "not a url" = false /\ stored "not a url") /\
  (forall usr full1 full2 custom (w : World),
     full1 <> EmptyString -> full2 <> EmptyString ->
     fst (POST_shorten random usr (Some full1) custom w)
     = fst (POST_shorten random usr (Some full2) custom w)).
Proof.
  cbv zeta. split; [|split].
  - repeat split; reflexivity.
  - repeat split; reflexivity.
  - intros usr full1 full2 custom w H1 H2. unfold POST_shorten.
    apply String.eqb_neq in H1, H2. rewrite H1, H2.
    destruct usr as [uid|]; [|reflexivity].
    unfold create_and_redirect, Model.create.
    destruct (custom_alias custom) as [short|].
    + destruct (Model.findOne short (db w)); [reflexivity|].
      destruct (existsb _ _); reflexivity.
    + destruct (generate_until_unique random (db w) 0 (rng w))
        as [[[short e] n] pos].
      destruct e; [reflexivity|]. simpl db.
      destruct (existsb _ _); reflexivity.
Qed.

Lemma target_url_is_not_validated_witness :
  fst (POST_shorten tape_cycle (Some 7) (Some "ftp://files.example/x")
         (Some "GHIJKL") busy_world)
  = fst (POST_shorten tape_cycle (Some 7) (Some "https://example.com")
           (Some "GHIJKL") busy_world).
Proof.
  refine (proj2 (proj2 (target_url_is_not_validated tape_cycle)) (Some 7)
    "ftp://files.example/x" "https://example.com" (Some "GHIJKL") busy_world
    _ _); discriminate.
Defined.

(** The prototype's handler does refuse what its validator refuses. *)
Lemma prototype_rejects_invalid_url isURL generate original st :
  isURL original = false ->
  Prototype.POST_shorten isURL generate original st
  = (Prototype.status_400 "Invalid URL", st).
Proof.
  intros H. unfold Prototype.POST_shorten. rewrite H. reflexivity.
Qed.

(** ** [GET /:short], one request at a time *)

Lemma find_unique_code l u :
  NoDup (map shortUrl l) -> In u l ->
  find (fun v => String.eqb (shortUrl v) (shortUrl u)) l = Some u.
Proof.
  induction l as [|v l IH]; intros Hnd Hin; [contradiction|].
  simpl in Hnd. inversion Hnd as [|? ? Hnotin Hnd']; subst.
  simpl. destruct (String.eqb_spec (shortUrl v) (shortUrl u)) as [E|E].
  - destruct Hin as [->|Hin]; [reflexivity|].
    exfalso. apply Hnotin. rewrite E. apply in_map, Hin.
  - destruct Hin as [->|Hin]; [congruence|]. apply IH; assumption.
Qed.

Lemma update_first_unique_id f l u :
  NoDup (map _id l) -> In u l ->
  exists l1 l2,
    l = l1 ++ u :: l2 /\
    Model.update_first (fun v => Nat.eqb (_id v) (_id u)) f l = l1 ++ f u :: l2.
Proof.
  induction l as [|v l IH]; intros Hnd Hin; [contradiction|].
  simpl in Hnd. inversion Hnd as [|? ? Hnotin Hnd']; subst.
  simpl. destruct (Nat.eqb_spec (_id v) (_id u)) as [E|E].
  - destruct Hin as [->|Hin].
    + exists [], l. split; reflexivity.
    + exfalso. apply Hnotin. rewrite E. apply in_map, Hin.
  - destruct Hin as [->|Hin]; [congruence|].
    destruct (IH Hnd' Hin) as [l1 [l2 [Hl Hup]]].
    exists (v :: l1), l2. simpl. rewrite <- Hl, Hup. split; reflexivity.
Qed.

Lemma findOne_unique c u :
  unique_codes c -> In u (docs c) -> Model.findOne (shortUrl u) c = Some u.
Proof.
  intros Hu Hin. apply find_unique_code; assumption.
Qed.

(** C3.  [GET /:short] answers [NotFound] exactly when no Link in the store
    has that code, and then returns the state as it was.  When a Link [u]
    has the code, the answer is a redirect to [u]'s target and the store
    afterwards is the store before with [u]'s click count one higher and
    nothing else changed. *)
Theorem resolve_counts_or_not_found short (w : World) :
  (fst (GET_short short w) = NotFound <->
   ~ exists u, In u (docs (db w)) /\ shortUrl u = short) /\
  (fst (GET_short short w) = NotFound -> snd (GET_short short w) = w) /\
  (forall u,
     wf (db w) -> In u (docs (db w)) -> shortUrl u = short ->
     fst (GET_short short w) = redirect (fullUrl u) /\
     rng (snd (GET_short short w)) = rng w /\
     next_id (db (snd (GET_short short w))) = next_id (db w) /\
     exists l1 l2,
       docs (db w) = l1 ++ u :: l2 /\
       docs (db (snd (GET_short short w)))
       = l1 ++ mkUrl (_id u) (fullUrl u) (shortUrl u) (user u) (clicks u + 1)
            :: l2).
Proof.
  split; [|split].
  - rewrite <- findOne_None_iff. unfold GET_short.
    destruct (Model.findOne short (db w)); simpl; split;
      congruence || discriminate.
  - unfold GET_short. destruct (Model.findOne short (db w)); simpl;
      [discriminate | reflexivity].
  - intros u [Hcodes [Hids _]] Hin <-. unfold GET_short.
    rewrite (findOne_unique _ _ Hcodes Hin). simpl.
    repeat split.
    destruct (update_first_unique_id Model.inc_clicks _ _ Hids Hin)
      as [l1 [l2 [Hl Hup]]].
    exists l1, l2. split; [exact Hl|]. rewrite Hup.
    unfold Model.inc_clicks. rewrite Nat.add_1_r. reflexivity.
Qed.

Lemma resolve_counts_or_not_found_witness :
  fst (GET_short "GHIJKL" busy_world) = redirect "https://b.example" /\
  docs (db (snd (GET_short "GHIJKL" busy_world)))
  = [link 0 "https://a.example" "ABCDEF" 1 0;
     link 1 "https://b.example" "GHIJKL" 1 4].
Proof.
  destruct (proj2 (proj2 (resolve_counts_or_not_found "GHIJKL" busy_world))
              (link 1 "https://b.example" "GHIJKL" 1 3))
    as [Hres [_ [_ [l1 [l2 [Hl Hdocs]]]]]].
  - repeat split; simpl.
    + repeat constructor; simpl; intuition discriminate.
    + repeat constructor; simpl; intuition discriminate.
    + repeat constructor.
  - simpl. auto.
  - reflexivity.
  - split; [exact Hres | reflexivity].
Defined.

(** ** Round trip *)

Lemma first_free_or_all_taken random c pos n :
  (forall j, j < n -> taken c (candidate random pos j)) \/
  (exists k, k < n /\
     (forall j, j < k -> taken c (candidate random pos j)) /\
     Model.findOne (candidate random pos k) c = None).
Proof.
  induction n as [|n [IH | [k [Hk [Htaken Hfree]]]]].
  - left. intros j Hj. lia.
  - destruct (Model.findOne (candidate random pos n) c) as [u|] eqn:E.
    + left. intros j Hj. destruct (Nat.eq_dec j n) as [->|Hne].
      * unfold taken. rewrite E. discriminate.
      * apply IH. lia.
    + right. exists n. auto.
  - right. exists k. split; [lia | auto].
Qed.

(** C8.  With [Math.random] in [0, 1), a request with a non-empty target
    and no (or a blank) custom alias either finds the first five candidates
    taken and answers [AllocationExhausted], or creates a Link whose code
    has exactly 6 characters, each an uppercase letter, a lowercase letter
    or a digit out of the 62 symbols of [chars]; [GET /:short] on that code
    then redirects to exactly the target given. *)
Theorem random_code_round_trip random uid full custom (w : World) :
  unit_interval random ->
  full <> EmptyString ->
  blank custom ->
  String.length chars = 62 /\
  string_forall isAlnum chars = true /\
  ((POST_shorten random (Some uid) (Some full) custom w
    = (AllocationExhausted, mkWorld (db w) (rng w + 30)) /\
    forall j, j < 5 -> taken (db w) (candidate random (rng w) j))
   \/
   exists code pos,
     POST_shorten random (Some uid) (Some full) custom w
     = (redirect "/dashboard", created full code uid w pos) /\
     Model.findOne code (db w) = None /\
     String.length code = 6 /\
     string_forall isAlnum code = true /\
     fst (GET_short code (created full code uid w pos)) = redirect full).
Proof.
  intros Hrange Hfull Hblank. apply custom_alias_blank in Hblank.
  split; [reflexivity|]. split; [reflexivity|].
  destruct (first_free_or_all_taken random (db w) (rng w) 5)
    as [Htaken | [k [Hk [Htaken Hfree]]]].
  - left. split; [|exact Htaken]. apply POST_shorten_exhausted; assumption.
  - right. exists (candidate random (rng w) k), (rng w + 6 * (k + 1)).
    destruct (generateCode_alnum random Hrange (rng w + 6 * k)) as [Hlen Hall].
    repeat split; try assumption.
    + apply POST_shorten_first_free; try assumption.
      unfold taken. rewrite Hfree. intros H. apply H. reflexivity.
    + unfold GET_short, created. simpl db.
      rewrite (findOne_created _ _ _ _ Hfree). reflexivity.
Qed.

Lemma tape_cycle_range : unit_interval tape_cycle.
Proof.
  intros n. unfold tape_cycle.
  assert (H : (0 <= Z.of_nat (n mod 62) < 62)%Z).
  { pose proof (Nat.mod_upper_bound n 62). lia. }
  split.
  - apply Qle_shift_div_l; [reflexivity|]. rewrite Qmult_0_l.
    change 0%Q with (inject_Z 0). rewrite <- Zle_Qle. lia.
  - apply Qlt_shift_div_r; [reflexivity|]. rewrite Qmult_1_l.
    change 62%Q with (inject_Z 62). rewrite <- Zlt_Qlt. lia.
Qed.

Lemma random_code_round_trip_witness :
  exists code pos,
    POST_shorten tape_cycle (Some 7) (Some "https://example.com") None busy_world
    = (redirect "/dashboard",
       created "https://example.com" code 7 busy_world pos) /\
    String.length code = 6 /\
    fst (GET_short code (created "https://example.com" code 7 busy_world pos))
    = redirect "https://example.com".
Proof.
  destruct (random_code_round_trip tape_cycle 7 "https://example.com" None
              busy_world tape_cycle_range)
    as [_ [_ [[H _] | [code [pos [H1 [_ [H2 [_ H3]]]]]]]]].
  - discriminate.
  - intros s H. discriminate H.
  - vm_compute in H. discriminate H.
  - exists code, pos. auto.
Defined.

(** ** What the store operations preserve *)

Lemma update_first_map {A} (g : Url -> A) p f l :
  (forall u, g (f u) = g u) ->
  map g (Model.update_first p f l) = map g l.
Proof.
  intros Hg. induction l as [|u l IH]; simpl; [reflexivity|].
  destruct (p u); simpl; [rewrite Hg | rewrite IH]; reflexivity.
Qed.

Lemma update_first_In p f l v :
  In v (Model.update_first p f l) -> In v l \/ exists u, In u l /\ v = f u.
Proof.
  induction l as [|u l IH]; simpl; [tauto|].
  destruct (p u); simpl.
  - intros [<-|H]; [right; exists u; auto | left; auto].
  - intros [<-|H]; [left; auto|].
    destruct (IH H) as [H'|[u' [H1 H2]]]; [left; auto | right; exists u'; auto].
Qed.

Lemma remove_first_In p l v : In v (Model.remove_first p l) -> In v l.
Proof.
  induction l as [|u l IH]; simpl; [tauto|].
  destruct (p u); simpl; [auto|]. intros [<-|H]; auto.
Qed.

Lemma remove_first_NoDup {A} (g : Url -> A) p l :
  NoDup (map g l) -> NoDup (map g (Model.remove_first p l)).
Proof.
  induction l as [|u l IH]; simpl; intros H; [exact H|].
  inversion H as [|? ? Hnotin Hnd]; subst.
  destruct (p u); simpl; [exact Hnd|].
  constructor; [|apply IH, Hnd].
  intros Hin. apply Hnotin. apply in_map_iff in Hin.
  destruct Hin as [v [Hv Hin]]. apply in_map_iff. exists v.
  split; [exact Hv | eapply remove_first_In, Hin].
Qed.

Lemma existsb_code_false short l :
  existsb (fun u => String.eqb (shortUrl u) short) l = false ->
  ~ In short (map shortUrl l).
Proof.
  intros H Hin. apply in_map_iff in Hin. destruct Hin as [u [Hu Hin]].
  assert (He : existsb (fun u => String.eqb (shortUrl u) short) l = true).
  { apply existsb_exists. exists u. split; [exact Hin|].
    apply String.eqb_eq, Hu. }
  congruence.
Qed.

Lemma NoDup_snoc {A} (l : list A) x : NoDup l -> ~ In x l -> NoDup (l ++ [x]).
Proof.
  intros Hnd Hx. induction l as [|y l IH]; simpl.
  - constructor; [tauto | constructor].
  - inversion Hnd as [|? ? Hy Hnd']; subst. constructor.
    + rewrite in_app_iff. simpl. intros [H|[H|[]]]; [tauto|].
      apply Hx. left. symmetry. exact H.
    + apply IH; [exact Hnd'|]. intros H. apply Hx. right. exact H.
Qed.

Lemma create_unique_codes full short uid c c' :
  unique_codes c -> Model.create full short uid c = Some c' -> unique_codes c'.
Proof.
  unfold unique_codes, Model.create. intros Hu.
  destruct (existsb _ (docs c)) eqn:E; [discriminate|].
  intros [= <-]. simpl. rewrite map_app. simpl.
  apply NoDup_snoc; [exact Hu | apply existsb_code_false, E].
Qed.

Lemma create_wf full short uid c c' :
  wf c -> Model.create full short uid c = Some c' -> wf c'.
Proof.
  intros [Hcodes [Hids Hlt]] Hcreate.
  split; [eapply create_unique_codes; eassumption|].
  unfold Model.create in Hcreate.
  destruct (existsb _ (docs c)); [discriminate|].
  injection Hcreate as <-. simpl. split.
  - rewrite map_app. simpl. apply NoDup_snoc; [exact Hids|].
    intros Hin. apply in_map_iff in Hin. destruct Hin as [v [Hv Hin]].
    rewrite Forall_forall in Hlt. specialize (Hlt v Hin). lia.
  - apply Forall_app. split.
    + eapply Forall_impl; [|exact Hlt]. simpl. intros; lia.
    + constructor; [simpl; lia | constructor].
Qed.

Lemma inc_unique_codes id c :
  unique_codes c -> unique_codes (Model.findByIdAndUpdate_inc id c).
Proof.
  unfold unique_codes. simpl. rewrite update_first_map; auto.
Qed.

Lemma inc_wf id c : wf c -> wf (Model.findByIdAndUpdate_inc id c).
Proof.
  intros [Hcodes [Hids Hlt]]. split; [apply inc_unique_codes, Hcodes|].
  simpl. split.
  - rewrite update_first_map; auto.
  - rewrite Forall_forall in *. intros v Hin.
    apply update_first_In in Hin. destruct Hin as [Hin|[u [Hin ->]]];
      [apply Hlt, Hin | simpl; apply Hlt, Hin].
Qed.

Lemma delete_unique_codes id uid c :
  unique_codes c -> unique_codes (Model.findOneAndDelete id uid c).
Proof.
  unfold unique_codes. simpl. apply remove_first_NoDup.
Qed.

Lemma delete_wf id uid c : wf c -> wf (Model.findOneAndDelete id uid c).
Proof.
  intros [Hcodes [Hids Hlt]]. split; [apply delete_unique_codes, Hcodes|].
  simpl. split.
  - apply remove_first_NoDup, Hids.
  - rewrite Forall_forall in *. intros v Hin. apply Hlt.
    eapply remove_first_In, Hin.
Qed.

(** ** Requests in flight *)

Section InFlight.

Variable random : nat -> Q.

(** Every turn either leaves the store alone or applies one of the three
    writes to it. *)
Lemma step_task_db t (w : World) :
  let c' := db (snd (step_task random t w)) in
  c' = db w \/
  (exists full short uid, Model.create full short uid (db w) = Some c') \/
  (exists url, t = await_findByIdAndUpdate url /\
               c' = Model.findByIdAndUpdate_inc (_id url) (db w)) \/
  (exists id uid, t = await_findOneAndDelete id uid /\
                  c' = Model.findOneAndDelete id uid (db w)).
Proof.
  destruct t as [r|full short uid|full short uid attempts|full short uid
                 |id uid|uid|short|url|res]; simpl.
  - destruct r as [[uid|] fullUrl custom|[uid|] id|[uid|]|short]; simpl; auto.
    destruct fullUrl as [full|]; simpl; auto.
    destruct (String.eqb full EmptyString); simpl; auto.
    destruct (custom_alias custom); simpl; auto.
  - destruct (Model.findOne short (db w)); simpl; auto.
  - destruct (Model.findOne short (db w)); simpl; auto.
    destruct (Nat.ltb attempts 5); simpl; auto.
  - destruct (Model.create full short uid (db w)) eqn:E; simpl; auto.
    right. left. exists full, short, uid. exact E.
  - right. right. right. exists id, uid. auto.
  - auto.
  - destruct (Model.findOne short (db w)); simpl; auto.
  - right. right. left. exists url. auto.
  - auto.
Qed.

Lemma step_nth_cases i ts (w : World) :
  step_nth random i ts w = (w, ts) \/
  exists l1 t l2,
    ts = l1 ++ t :: l2 /\ List.length l1 = i /\
    step_nth random i ts w
    = (snd (step_task random t w), l1 ++ fst (step_task random t w) :: l2).
Proof.
  revert i. induction ts as [|t ts IH]; intros i;
    [destruct i; simpl; auto|].
  destruct i as [|i]; simpl.
  - right. exists [], t, ts. destruct (step_task random t w). auto.
  - destruct (IH i) as [H | [l1 [t' [l2 [Hts [Hlen H]]]]]]; rewrite H.
    + auto.
    + right. exists (t :: l1), t', l2. simpl. rewrite Hts, Hlen. auto.
Qed.

(** A property of the state that every turn preserves holds along every
    schedule. *)
Lemma run_invariant (P : World -> Prop) :
  (forall t w, P w -> P (snd (step_task random t w))) ->
  forall sched cfg, P (fst cfg) -> P (fst (run random sched cfg)).
Proof.
  intros Hstep. unfold run.
  induction sched as [|i sched IH]; intros cfg HP; [exact HP|].
  simpl. apply IH. unfold step.
  destruct (step_nth_cases i (snd cfg) (fst cfg))
    as [H | [l1 [t [l2 [_ [_ H]]]]]]; rewrite H; simpl; auto.
Qed.

Lemma step_task_unique_codes t (w : World) :
  unique_codes (db w) -> unique_codes (db (snd (step_task random t w))).
Proof.
  intros H.
  destruct (step_task_db t w)
    as [E | [[full [short [uid E]]] | [[url [_ E]] | [id [uid [_ E]]]]]].
  - rewrite E. exact H.
  - eapply create_unique_codes; eassumption.
  - rewrite E. apply inc_unique_codes, H.
  - rewrite E. apply delete_unique_codes, H.
Qed.

Lemma step_task_wf t (w : World) :
  wf (db w) -> wf (db (snd (step_task random t w))).
Proof.
  intros H.
  destruct (step_task_db t w)
    as [E | [[full [short [uid E]]] | [[url [_ E]] | [id [uid [_ E]]]]]].
  - rewrite E. exact H.
  - eapply create_wf; eassumption.
  - rewrite E. apply inc_wf, H.
  - rewrite E. apply delete_wf, H.
Qed.

End InFlight.

(** ** Uniqueness of codes *)

(** C5.  From a store whose codes are pairwise distinct (the empty store,
    for one), every state reached by any requests in flight, taking their
    turns in any order, has pairwise distinct codes: the unique index
    makes [Url.create] fail rather than store a second Link under a code. *)
Theorem codes_stay_unique random sched ts (w : World) :
  unique_codes (db w) ->
  unique_codes (db (fst (run random sched (w, ts)))).
Proof.
  intros H.
  apply (run_invariant random (fun w => unique_codes (db w))); [|exact H].
  intros t w'. apply step_task_unique_codes.
Qed.

Lemma codes_stay_unique_witness :
  unique_codes
    (db (fst (run tape_cycle racing_schedule
                (empty_world, map arrived racing_requests)))) /\
  map shortUrl
    (docs (db (fst (run tape_cycle racing_schedule
                      (empty_world, map arrived racing_requests)))))
  = ["promo"; "ABCDEF"] /\
  snd (run tape_cycle racing_schedule
         (empty_world, map arrived racing_requests))
  = [responded (redirect "/dashboard"); responded rejected;
     responded (redirect "/dashboard")].
Proof.
  split; [|split].
  - apply (codes_stay_unique tape_cycle racing_schedule
             (map arrived racing_requests) empty_world).
    constructor.
  - reflexivity.
  - reflexivity.
Defined.

(** ** Click counts *)

Lemma findById_In id c u : findById id c = Some u -> In u (docs c) /\ _id u = id.
Proof.
  unfold findById. intros H. apply find_some in H.
  destruct H as [Hin Heq]. apply Nat.eqb_eq in Heq. auto.
Qed.

Lemma find_app_some {A} (p : A -> bool) l1 l2 x :
  find p l1 = Some x -> find p (l1 ++ l2) = Some x.
Proof.
  induction l1 as [|y l1 IH]; simpl; [discriminate|].
  destruct (p y); auto.
Qed.

Lemma find_app_none {A} (p : A -> bool) l1 l2 :
  find p l1 = None -> find p (l1 ++ l2) = find p l2.
Proof.
  induction l1 as [|y l1 IH]; simpl; [reflexivity|].
  destruct (p y); [discriminate | auto].
Qed.

Lemma findById_fresh id c :
  Forall (fun u => _id u < next_id c) (docs c) -> next_id c <= id ->
  findById id c = None.
Proof.
  intros Hlt Hid. unfold findById.
  destruct (find _ (docs c)) as [u|] eqn:E; [|reflexivity].
  apply find_some in E. destruct E as [Hin Heq]. apply Nat.eqb_eq in Heq.
  rewrite Forall_forall in Hlt. specialize (Hlt u Hin). lia.
Qed.

Lemma findById_create id full short uid c c' u :
  Model.create full short uid c = Some c' ->
  findById id c = Some u -> findById id c' = Some u.
Proof.
  unfold Model.create. destruct (existsb _ (docs c)); [discriminate|].
  intros [= <-] H. unfold findById in *. simpl. apply find_app_some, H.
Qed.

Lemma findById_create_new full short uid c c' :
  wf c -> Model.create full short uid c = Some c' ->
  findById (next_id c) c = None /\
  findById (next_id c) c' = Some (mkUrl (next_id c) full short uid 0).
Proof.
  intros [_ [_ Hlt]] Hcreate.
  assert (Hnone : findById (next_id c) c = None)
    by (apply findById_fresh; [exact Hlt | lia]).
  split; [exact Hnone|].
  unfold Model.create in Hcreate. destruct (existsb _ (docs c)); [discriminate|].
  injection Hcreate as <-. unfold findById in *. simpl.
  rewrite (find_app_none _ _ _ Hnone). simpl. rewrite Nat.eqb_refl. reflexivity.
Qed.

Lemma findById_inc id id0 c :
  findById id (Model.findByIdAndUpdate_inc id0 c)
  = if Nat.eqb id id0 then option_map Model.inc_clicks (findById id c)
    else findById id c.
Proof.
  unfold findById. simpl. induction (docs c) as [|v l IH]; simpl.
  - destruct (Nat.eqb id id0); reflexivity.
  - destruct (Nat.eqb_spec (_id v) id0) as [E0|E0]; simpl.
    + destruct (Nat.eqb_spec (_id v) id) as [E|E].
      * rewrite <- E, E0, Nat.eqb_refl. reflexivity.
      * destruct (Nat.eqb_spec id id0) as [E'|E']; [congruence | reflexivity].
    + destruct (Nat.eqb_spec (_id v) id) as [E|E]; [|exact IH].
      destruct (Nat.eqb_spec id id0) as [E'|E']; [congruence | reflexivity].
Qed.

Lemma findById_delete id id0 uid c u u' :
  NoDup (map _id (docs c)) ->
  findById id c = Some u ->
  findById id (Model.findOneAndDelete id0 uid c) = Some u' ->
  u' = u.
Proof.
  unfold findById. simpl. induction (docs c) as [|v l IH]; simpl;
    [discriminate|].
  intros Hnd. inversion Hnd as [|? ? Hnotin Hnd']; subst.
  destruct (Nat.eqb (_id v) id0 && Nat.eqb (user v) uid); simpl.
  - destruct (Nat.eqb_spec (_id v) id) as [E|E].
    + intros _ H. apply find_some in H. destruct H as [Hin Heq].
      apply Nat.eqb_eq in Heq. exfalso. apply Hnotin.
      rewrite E, <- Heq. apply in_map, Hin.
    + congruence.
  - destruct (Nat.eqb_spec (_id v) id) as [E|E]; [congruence | auto].
Qed.

Lemma findById_delete_none id id0 uid c :
  findById id c = None -> findById id (Model.findOneAndDelete id0 uid c) = None.
Proof.
  unfold findById. simpl. intros H.
  destruct (find _ (Model.remove_first _ _)) as [u|] eqn:E; [|reflexivity].
  apply find_some in E. destruct E as [Hin Heq].
  apply remove_first_In in Hin.
  pose proof (find_none _ _ H u Hin) as Hn. simpl in Hn. congruence.
Qed.

Section Clicks.

Variable random : nat -> Q.

(** A turn never lowers a click count, and only the [$inc] turn of
    [GET /:short] changes one. *)
Lemma step_task_clicks t (w : World) id n n' :
  wf (db w) ->
  clicks_of id (db w) = Some n ->
  clicks_of id (db (snd (step_task random t w))) = Some n' ->
  n <= n' /\ ((forall url, t <> await_findByIdAndUpdate url) -> n' = n).
Proof.
  intros [_ [Hids _]] Hn Hn'. unfold clicks_of in *.
  destruct (findById id (db w)) as [u|] eqn:Hu; [|discriminate].
  injection Hn as <-.
  destruct (step_task_db random t w)
    as [E | [[full [short [uid E]]] | [[url [Ht E]] | [id0 [uid [_ E]]]]]].
  - rewrite E, Hu in Hn'. injection Hn' as <-. auto.
  - rewrite (findById_create _ _ _ _ _ _ _ E Hu) in Hn'.
    injection Hn' as <-. auto.
  - rewrite E, findById_inc, Hu in Hn'.
    destruct (Nat.eqb id (_id url)); simpl in Hn'; injection Hn' as <-.
    + split; [lia|]. intros H. exfalso. exact (H url Ht).
    + auto.
  - rewrite E in Hn'.
    destruct (findById id (Model.findOneAndDelete id0 uid (db w))) as [u'|] eqn:Hu';
      [|discriminate].
    rewrite (findById_delete _ _ _ _ _ _ Hids Hu Hu') in Hn'.
    injection Hn' as <-. auto.
Qed.

(** The [_id] of a deleted Link is never used again. *)
Lemma step_task_dead t (w : World) id :
  id < next_id (db w) -> findById id (db w) = None ->
  id < next_id (db (snd (step_task random t w))) /\
  findById id (db (snd (step_task random t w))) = None.
Proof.
  intros Hlt Hnone.
  destruct (step_task_db random t w)
    as [E | [[full [short [uid E]]] | [[url [_ E]] | [id0 [uid [_ E]]]]]].
  - rewrite E. auto.
  - unfold Model.create in E. destruct (existsb _ (docs (db w))); [discriminate|].
    injection E as E. rewrite <- E. simpl. split; [lia|].
    unfold findById in *. simpl. rewrite (find_app_none _ _ _ Hnone). simpl.
    destruct (Nat.eqb_spec (next_id (db w)) id); [lia | reflexivity].
  - rewrite E. split; [exact Hlt|]. rewrite findById_inc, Hnone.
    destruct (Nat.eqb id (_id url)); reflexivity.
  - rewrite E. split; [exact Hlt|]. apply findById_delete_none, Hnone.
Qed.

Lemma run_dead sched : forall (cfg : Config) id,
  id < next_id (db (fst cfg)) -> findById id (db (fst cfg)) = None ->
  findById id (db (fst (run random sched cfg))) = None.
Proof.
  intros cfg id Hlt Hnone.
  apply (run_invariant random
           (fun w => id < next_id (db w) /\ findById id (db w) = None));
    [|auto].
  intros t w [H1 H2]. apply step_task_dead; assumption.
Qed.

Lemma step_cases i (cfg : Config) :
  step random i cfg = cfg \/
  exists t ts', fst (step random i cfg) = snd (step_task random t (fst cfg)) /\
                snd (step random i cfg) = ts'.
Proof.
  unfold step. destruct cfg as [w ts]. simpl.
  destruct (step_nth_cases random i ts w) as [H | [l1 [t [l2 [_ [_ H]]]]]];
    rewrite H; [auto|].
  right. eexists t, _. simpl. auto.
Qed.

Lemma run_clicks sched : forall (cfg : Config) id n n',
  wf (db (fst cfg)) ->
  clicks_of id (db (fst cfg)) = Some n ->
  clicks_of id (db (fst (run random sched cfg))) = Some n' ->
  n <= n'.
Proof.
  induction sched as [|i sched IH]; intros cfg id n n' Hwf Hn Hn'.
  - simpl in Hn'. rewrite Hn in Hn'. injection Hn' as <-. lia.
  - change (run random (i :: sched) cfg)
      with (run random sched (step random i cfg)) in Hn'.
    destruct (step_cases i cfg) as [E | [t [ts' [Ew _]]]].
    + rewrite E in Hn'. eapply IH; eassumption.
    + assert (Hwf' : wf (db (fst (step random i cfg))))
        by (rewrite Ew; apply step_task_wf, Hwf).
      destruct (clicks_of id (db (fst (step random i cfg)))) as [m|] eqn:Hm.
      * assert (n <= m).
        { rewrite Ew in Hm.
          exact (proj1 (step_task_clicks t (fst cfg) id n m Hwf Hn Hm)). }
        assert (m <= n') by (eapply IH; eassumption). lia.
      * exfalso. unfold clicks_of in Hn, Hm, Hn'.
        destruct (findById id (db (fst cfg))) as [u|] eqn:Hu; [|discriminate].
        destruct (findById id (db (fst (step random i cfg)))) eqn:Hdead;
          [discriminate|].
        rewrite (run_dead sched (step random i cfg) id) in Hn';
          [discriminate | | exact Hdead].
        apply findById_In in Hu. destruct Hu as [Hin Hid].
        destruct Hwf as [_ [_ Hlt]]. rewrite Forall_forall in Hlt.
        specialize (Hlt u Hin). rewrite Hid in Hlt.
        rewrite Ew.
        destruct (step_task_db random t (fst cfg))
          as [E | [[full [short [uid E]]] | [[url [_ E]] | [id0 [uid [_ E]]]]]].
        -- rewrite E. exact Hlt.
        -- unfold Model.create in E.
           destruct (existsb _ (docs (db (fst cfg)))); [discriminate|].
           injection E as E. rewrite <- E. simpl. lia.
        -- rewrite E. exact Hlt.
        -- rewrite E. exact Hlt.
Qed.

End Clicks.

(** ** A request alone is its handler *)

Section Alone.

Variable random : nat -> Q.

Lemma run_alone_responded n res (w : World) :
  run_alone random n (responded res) w = (responded res, w).
Proof.
  induction n as [|n IH]; simpl; auto.
Qed.

Lemma await_create_alone n full short uid (w : World) :
  run_alone random (S n) (await_create full short uid) w
  = (responded (fst (create_and_redirect full short uid w)),
     snd (create_and_redirect full short uid w)).
Proof.
  simpl. unfold create_and_redirect.
  destruct (Model.create full short uid (db w)); simpl;
    apply run_alone_responded.
Qed.

(** The turns of the random path are the iterations of the [do ... while]
    loop. *)
Lemma await_random_alone full uid c m : forall attempts pos k,
  attempts + m = 4 ->
  run_alone random (m + 2 + k)
    (await_random_findOne full (fst (generateCode random pos)) uid (S attempts))
    (mkWorld c (snd (generateCode random pos)))
  = let '(short, exists_, _, pos') :=
      generate_until_unique random c attempts pos in
    match exists_ with
    | Some _ => (responded AllocationExhausted, mkWorld c pos')
    | None =>
        (responded (fst (create_and_redirect full short uid (mkWorld c pos'))),
         snd (create_and_redirect full short uid (mkWorld c pos')))
    end.
Proof.
  induction m as [|m IH]; intros attempts pos k Hsum;
    destruct (Model.findOne (fst (generateCode random pos)) c) as [u|] eqn:E.
  - rewrite (loop_give_up _ _ _ _ u E) by lia.
    assert (Hge : Nat.ltb (S attempts) 5 = false) by (apply Nat.ltb_ge; lia).
    change (0 + 2 + k) with (S (S k)).
    cbn [run_alone step_task db]. rewrite E, Hge.
    apply run_alone_responded.
  - rewrite (loop_free _ _ _ _ E).
    change (0 + 2 + k) with (S (S k)).
    cbn [run_alone step_task db]. rewrite E.
    apply await_create_alone.
  - rewrite (loop_again _ _ _ _ u E) by lia.
    change (S m + 2 + k) with (S (m + 2 + k)).
    cbn [run_alone step_task db rng]. rewrite E.
    assert (Hlt : Nat.ltb (S attempts) 5 = true) by (apply Nat.ltb_lt; lia).
    rewrite Hlt.
    rewrite (surjective_pairing (generateCode random (snd (generateCode random pos)))).
    apply IH. lia.
  - rewrite (loop_free _ _ _ _ E).
    replace (S m + 2 + k) with (S (S (m + 1 + k))) by lia.
    cbn [run_alone step_task db]. rewrite E.
    apply await_create_alone.
Qed.

(** Seven turns take any request from its arrival to the response and the
    state its handler computes. *)
Lemma handle_run_alone r (w : World) :
  run_alone random 7 (arrived r) w
  = (responded (fst (handle random r w)), snd (handle random r w)).
Proof.
  destruct r as [[uid|] fullUrl custom|[uid|] id|[uid|]|short];
    try reflexivity.
  - destruct fullUrl as [full|]; [|reflexivity].
    change (run_alone random 7 (arrived (post_shorten (Some uid) (Some full) custom)) w)
      with (let '(t, w') := start random (post_shorten (Some uid) (Some full) custom) w
            in run_alone random 6 t w').
    cbn [start handle]. unfold POST_shorten.
    destruct (String.eqb full EmptyString); [reflexivity|].
    destruct (custom_alias custom) as [short|].
    + change (run_alone random 6 (await_custom_findOne full short uid) w)
        with (let '(t, w') := step_task random (await_custom_findOne full short uid) w
              in run_alone random 5 t w').
      cbn [step_task].
      destruct (Model.findOne short (db w)); [reflexivity|].
      apply await_create_alone.
    + rewrite (surjective_pairing (generateCode random (rng w))).
      pose proof (await_random_alone full uid (db w) 4 0 (rng w) 0 eq_refl)
        as Hloop.
      change (4 + 2 + 0) with 6 in Hloop. rewrite Hloop.
      destruct (generate_until_unique random (db w) 0 (rng w))
        as [[[short e] n] pos].
      destruct e; reflexivity.
  - cbn [handle]. unfold GET_short.
    change (run_alone random 7 (arrived (get_short short)) w)
      with (let '(t, w') := step_task random (await_short_findOne short) w
            in run_alone random 5 t w').
    cbn [step_task]. destruct (Model.findOne short (db w)); reflexivity.
Qed.

(** Every handler either leaves the store alone or applies one write. *)
Lemma handle_db r (w : World) :
  let c' := db (snd (handle random r w)) in
  c' = db w \/
  (exists full short uid, Model.create full short uid (db w) = Some c') \/
  (exists short id, r = get_short short /\
                    c' = Model.findByIdAndUpdate_inc id (db w)) \/
  (exists id uid, c' = Model.findOneAndDelete id uid (db w)).
Proof.
  destruct r as [[uid|] fullUrl custom|[uid|] id|[uid|]|short]; simpl; auto.
  - unfold POST_shorten, create_and_redirect.
    destruct fullUrl as [full|]; simpl; auto.
    destruct (String.eqb full EmptyString); simpl; auto.
    destruct (custom_alias custom) as [short|].
    + destruct (Model.findOne short (db w)); simpl; auto.
      destruct (Model.create full short uid (db w)) eqn:E; simpl; auto.
      right. left. exists full, short, uid. exact E.
    + destruct (generate_until_unique random (db w) 0 (rng w))
        as [[[short e] n] pos].
      destruct e; simpl; auto.
      destruct (Model.create full short uid (db w)) eqn:E; simpl; auto.
      right. left. exists full, short, uid. exact E.
  - right. right. right. exists id, uid. reflexivity.
  - unfold GET_short. destruct (Model.findOne short (db w)) as [url|]; simpl; auto.
    right. right. left. exists short, (_id url). auto.
Qed.

Lemma handle_clicks r (w : World) id n n' :
  wf (db w) ->
  clicks_of id (db w) = Some n ->
  clicks_of id (db (snd (handle random r w))) = Some n' ->
  n <= n' /\ ((forall short, r <> get_short short) -> n' = n).
Proof.
  intros [_ [Hids _]] Hn Hn'. unfold clicks_of in *.
  destruct (findById id (db w)) as [u|] eqn:Hu; [|discriminate].
  injection Hn as <-.
  destruct (handle_db r w)
    as [E | [[full [short [uid E]]] | [[short [id0 [Hr E]]] | [id0 [uid E]]]]].
  - rewrite E, Hu in Hn'. injection Hn' as <-. auto.
  - rewrite (findById_create _ _ _ _ _ _ _ E Hu) in Hn'.
    injection Hn' as <-. auto.
  - rewrite E, findById_inc, Hu in Hn'.
    destruct (Nat.eqb id id0); simpl in Hn'; injection Hn' as <-.
    + split; [lia|]. intros H. exfalso. exact (H short Hr).
    + auto.
  - rewrite E in Hn'.
    destruct (findById id (Model.findOneAndDelete id0 uid (db w))) as [u'|] eqn:Hu';
      [|discriminate].
    rewrite (findById_delete _ _ _ _ _ _ Hids Hu Hu') in Hn'.
    injection Hn' as <-. auto.
Qed.

End Alone.

(** C6.  A Link is created with [clicks = 0].  Every handler, every single
    turn of a request in flight and every interleaving of turns leaves the
    click count of a Link that is still in the store at or above what it
    was; it is changed only by [GET /:short] (by its [$inc] turn). *)
Theorem clicks_never_decrease random :
  (forall full short uid c c',
     wf c -> Model.create full short uid c = Some c' ->
     clicks_of (next_id c) c = None /\ clicks_of (next_id c) c' = Some 0) /\
  (forall r (w : World) id n n',
     wf (db w) ->
     clicks_of id (db w) = Some n ->
     clicks_of id (db (snd (handle random r w))) = Some n' ->
     n <= n' /\ ((forall short, r <> get_short short) -> n' = n)) /\
  (forall t (w : World) id n n',
     wf (db w) ->
     clicks_of id (db w) = Some n ->
     clicks_of id (db (snd (step_task random t w))) = Some n' ->
     n <= n' /\ ((forall url, t <> await_findByIdAndUpdate url) -> n' = n)) /\
  (forall sched (cfg : Config) id n n',
     wf (db (fst cfg)) ->
     clicks_of id (db (fst cfg)) = Some n ->
     clicks_of id (db (fst (run random sched cfg))) = Some n' ->
     n <= n').
Proof.
  split; [|split; [|split]].
  - intros full short uid c c' Hwf Hcreate. unfold clicks_of.
    destruct (findById_create_new _ _ _ _ _ Hwf Hcreate) as [H1 H2].
    rewrite H1, H2. auto.
  - intros. eapply handle_clicks; eassumption.
  - intros. eapply step_task_clicks; eassumption.
  - intros. eapply run_clicks; eassumption.
Qed.

Ltac sample_wf :=
  repeat split; simpl;
  repeat (constructor; simpl; try lia; try (intuition discriminate)).

Lemma clicks_never_decrease_witness :
  clicks_of 1 (db busy_world) = Some 3 /\
  clicks_of 1
    (db (fst (run tape_cycle visiting_schedule
                (busy_world, map arrived visiting_requests))))
  = Some 6 /\
  3 <= 6.
Proof.
  split; [reflexivity|]. split; [reflexivity|].
  refine (proj2 (proj2 (proj2 (clicks_never_decrease tape_cycle)))
            visiting_schedule (busy_world, map arrived visiting_requests)
            1 3 6 _ _ _).
  - sample_wf.
  - reflexivity.
  - reflexivity.
Defined.

(** ** Concurrent hits *)

Lemma same_id_same_doc l (a b : Url) :
  NoDup (map _id l) -> In a l -> In b l -> _id a = _id b -> a = b.
Proof.
  induction l as [|v l IH]; intros Hnd Ha Hb Hid; [contradiction|].
  simpl in Hnd. inversion Hnd as [|? ? Hnotin Hnd']; subst.
  destruct Ha as [->|Ha], Hb as [->|Hb]; auto.
  - exfalso. apply Hnotin. rewrite Hid. apply in_map, Hb.
  - exfalso. apply Hnotin. rewrite <- Hid. apply in_map, Ha.
Qed.

Lemma update_first_keeps p f l (u : Url) :
  In u l -> p u = false -> In u (Model.update_first p f l).
Proof.
  induction l as [|v l IH]; simpl; [tauto|].
  intros [->|Hin] Hp.
  - rewrite Hp. left. reflexivity.
  - destruct (p v); simpl; auto.
Qed.

Lemma total_hits_app short id l1 l2 :
  total_hits short id (l1 ++ l2)
  = total_hits short id l1 + total_hits short id l2.
Proof.
  unfold total_hits. rewrite map_app, list_sum_app. reflexivity.
Qed.

Lemma total_hits_arrived short id reqs :
  total_hits short id (map arrived reqs)
  = List.length (filter (is_get_short short) reqs).
Proof.
  unfold total_hits. induction reqs as [|r reqs IH]; [reflexivity|].
  simpl. rewrite IH. destruct r as [| | |s]; simpl; try reflexivity.
  destruct (String.eqb s short); reflexivity.
Qed.

Lemma total_hits_responded short id ts :
  forallb is_responded ts = true -> total_hits short id ts = 0.
Proof.
  unfold total_hits. induction ts as [|t ts IH]; [reflexivity|].
  simpl. intros H. apply andb_prop in H. destruct H as [Ht Hts].
  rewrite (IH Hts). destruct t; try discriminate. reflexivity.
Qed.

Section Hits.

Variable random : nat -> Q.
Variable short : string.
Variable id : nat.
Variable full : string.

Local Abbreviation holds := (holds short id full).

(** A turn of a request that does not delete moves one pending hit into
    the click count, or leaves both as they are. *)
Lemma step_task_hits t (w : World) n :
  wf (db w) -> holds (db w) n -> keeps_links t = true ->
  exists n',
    holds (db (snd (step_task random t w))) n' /\
    n' + hits short id (fst (step_task random t w)) = n + hits short id t /\
    keeps_links (fst (step_task random t w)) = true.
Proof.
  intros Hwf [u [Hin [Hcode [Hid [Hfull Hn]]]]] Hkeep.
  assert (Hsame : holds (db w) n) by (exists u; auto).
  destruct Hwf as [Hcodes [Hids Hlt]].
  destruct t as [r|full' short' uid|full' short' uid attempts|full' short' uid
                 |id0 uid|uid|s|url|res]; cbn [step_task].
  - destruct r as [[uid|] fullUrl custom|usr id0|[uid|]|s]; cbn [start];
      try discriminate; try (solve [exists n; auto]).
    destruct fullUrl as [full'|]; [|exists n; auto].
    destruct (String.eqb full' EmptyString); [exists n; auto|].
    destruct (custom_alias custom); [exists n; auto|].
    destruct (generateCode random (rng w)) as [code pos].
    exists n; auto.
  - destruct (Model.findOne short' (db w)); exists n; auto.
  - destruct (Model.findOne short' (db w)); [|exists n; auto].
    destruct (Nat.ltb attempts 5); [|exists n; auto].
    destruct (generateCode random (rng w)) as [code pos].
    exists n; auto.
  - unfold Model.create. destruct (existsb _ (docs (db w))); [exists n; auto|].
    exists n. split; [|auto]. exists u. simpl. rewrite in_app_iff. auto.
  - discriminate.
  - exists n; auto.
  - cbn [hits]. destruct (String.eqb_spec s short) as [->|Hs].
    + assert (Hf : Model.findOne short (db w) = Some u)
        by (rewrite <- Hcode; apply findOne_unique; assumption).
      rewrite Hf. cbn [fst snd hits]. rewrite Hid, Nat.eqb_refl.
      exists n; auto.
    + destruct (Model.findOne s (db w)) as [url|] eqn:E; [|exists n; auto].
      apply findOne_In in E. destruct E as [Hurl Hs'].
      cbn [fst snd hits].
      destruct (Nat.eqb_spec (_id url) id) as [Heq|Hne]; [|exists n; auto].
      exfalso. apply Hs. rewrite <- Hs', <- Hcode. f_equal.
      apply (same_id_same_doc (docs (db w))); auto. congruence.
  - cbn [fst snd hits db]. destruct (Nat.eqb_spec (_id url) id) as [Heq|Hne].
    + exists (S n). split; [|split; [simpl; lia | reflexivity]].
      rewrite Heq, <- Hid. unfold Model.findByIdAndUpdate_inc.
      destruct (update_first_unique_id Model.inc_clicks _ _ Hids Hin)
        as [l1 [l2 [_ Hup]]].
      exists (Model.inc_clicks u). cbn [docs]. rewrite Hup, in_app_iff. simpl.
      repeat split; auto; congruence.
    + exists n. split; [|auto]. exists u. repeat split; auto.
      apply update_first_keeps; [exact Hin|].
      apply Nat.eqb_neq. congruence.
  - exists n; auto.
Qed.

Lemma keeps_links_app l1 l2 :
  forallb keeps_links (l1 ++ l2)
  = forallb keeps_links l1 && forallb keeps_links l2.
Proof.
  apply forallb_app.
Qed.

Lemma step_hits i (cfg : Config) n :
  wf (db (fst cfg)) -> holds (db (fst cfg)) n ->
  forallb keeps_links (snd cfg) = true ->
  exists n',
    wf (db (fst (step random i cfg))) /\
    holds (db (fst (step random i cfg))) n' /\
    forallb keeps_links (snd (step random i cfg)) = true /\
    n' + total_hits short id (snd (step random i cfg))
    = n + total_hits short id (snd cfg).
Proof.
  destruct cfg as [w ts]. unfold step. simpl. intros Hwf Hholds Hkeep.
  destruct (step_nth_cases random i ts w) as [H | [l1 [t [l2 [Hts [_ H]]]]]];
    rewrite H; simpl.
  - exists n. auto.
  - subst ts. rewrite keeps_links_app in Hkeep. simpl in Hkeep.
    apply andb_prop in Hkeep. destruct Hkeep as [Hk1 Hk2].
    apply andb_prop in Hk2. destruct Hk2 as [Hkt Hk2].
    destruct (step_task_hits t w n Hwf Hholds Hkt) as [n' [Hh [Hsum Hk']]].
    exists n'. split; [apply step_task_wf, Hwf|]. split; [exact Hh|]. split.
    + rewrite keeps_links_app. simpl. rewrite Hk1, Hk', Hk2. reflexivity.
    + rewrite !total_hits_app. unfold total_hits in *. simpl. lia.
Qed.

Lemma run_hits sched : forall (cfg : Config) n,
  wf (db (fst cfg)) -> holds (db (fst cfg)) n ->
  forallb keeps_links (snd cfg) = true ->
  exists n',
    holds (db (fst (run random sched cfg))) n' /\
    n' + total_hits short id (snd (run random sched cfg))
    = n + total_hits short id (snd cfg).
Proof.
  induction sched as [|i sched IH]; intros cfg n Hwf Hholds Hkeep.
  - exists n. auto.
  - change (run random (i :: sched) cfg)
      with (run random sched (step random i cfg)).
    destruct (step_hits i cfg n Hwf Hholds Hkeep)
      as [m [Hwf' [Hholds' [Hkeep' Hsum]]]].
    destruct (IH (step random i cfg) m Hwf' Hholds' Hkeep')
      as [n' [Hh Hsum']].
    exists n'. split; [exact Hh | lia].
Qed.

End Hits.

Lemma keeps_links_arrived reqs :
  forallb keeps_links (map arrived reqs)
  = forallb (fun r => negb (is_delete r)) reqs.
Proof.
  induction reqs as [|r reqs IH]; simpl; [reflexivity|].
  rewrite IH. reflexivity.
Qed.

(** C9.  Let the store hold a Link [u] under [short], and let any requests
    other than deletes be in flight, [K] of them [GET /:short] for that
    code.  Whatever the order of the turns, the click count plus the hits
    still pending is always [clicks u + K]; so once every request has been
    answered the Link has exactly [clicks u + K] clicks: each hit is one
    [$inc] applied by the store, and none is lost. *)
Theorem concurrent_hits_all_counted random short reqs sched (w : World) u :
  wf (db w) ->
  In u (docs (db w)) ->
  shortUrl u = short ->
  forallb (fun r => negb (is_delete r)) reqs = true ->
  let cfg := run random sched (w, map arrived reqs) in
  let K := List.length (filter (is_get_short short) reqs) in
  (exists n,
     holds short (_id u) (fullUrl u) (db (fst cfg)) n /\
     n + total_hits short (_id u) (snd cfg) = clicks u + K) /\
  (forallb is_responded (snd cfg) = true ->
   holds short (_id u) (fullUrl u) (db (fst cfg)) (clicks u + K)).
Proof.
  intros Hwf Hin Hcode Hreqs cfg K.
  assert (Hholds : holds short (_id u) (fullUrl u) (db w) (clicks u))
    by (exists u; auto).
  assert (Hkeep : forallb keeps_links (map arrived reqs) = true)
    by (rewrite keeps_links_arrived; exact Hreqs).
  destruct (run_hits random short (_id u) (fullUrl u) sched
              (w, map arrived reqs) (clicks u) Hwf Hholds Hkeep)
    as [n [Hn Hsum]].
  fold cfg in Hn, Hsum. simpl snd in Hsum.
  rewrite total_hits_arrived in Hsum. fold K in Hsum.
  split.
  - exists n. auto.
  - intros Hdone. rewrite (total_hits_responded _ _ _ Hdone) in Hsum.
    replace (clicks u + K) with n by lia. exact Hn.
Qed.

Lemma concurrent_hits_all_counted_witness :
  let cfg := run tape_cycle visiting_schedule
               (busy_world, map arrived visiting_requests) in
  forallb is_responded (snd cfg) = true /\
  holds "GHIJKL" 1 "https://b.example" (db (fst cfg)) (3 + 3).
Proof.
  cbv zeta. split; [reflexivity|].
  refine (proj2 (concurrent_hits_all_counted tape_cycle "GHIJKL"
                   visiting_requests visiting_schedule busy_world
                   (link 1 "https://b.example" "GHIJKL" 1 3) _ _ _ _) _).
  - sample_wf.
  - simpl. auto.
  - reflexivity.
  - reflexivity.
  - reflexivity.
Defined.

(** * Further properties of the handlers *)

(** ** Deleting *)

Lemma remove_first_none p (l : list Url) :
  (forall u, In u l -> p u = false) -> Model.remove_first p l = l.
Proof.
  induction l as [|v l IH]; intros H; simpl; [reflexivity|].
  rewrite (H v (or_introl eq_refl)). f_equal. apply IH.
  intros u Hu. apply H. right. exact Hu.
Qed.

Lemma remove_first_unique_id uid l (u : Url) :
  NoDup (map _id l) -> In u l -> user u = uid ->
  exists l1 l2,
    l = l1 ++ u :: l2 /\
    Model.remove_first
      (fun v => Nat.eqb (_id v) (_id u) && Nat.eqb (user v) uid) l
    = l1 ++ l2.
Proof.
  intros Hnd Hin Huser. induction l as [|v l IH]; [contradiction|].
  simpl in Hnd. inversion Hnd as [|? ? Hnotin Hnd']; subst.
  simpl. destruct (Nat.eqb_spec (_id v) (_id u)) as [E|E]; simpl.
  - assert (v = u) as ->.
    { destruct Hin as [Hv|Hin]; [exact Hv|].
      exfalso. apply Hnotin. rewrite E. apply in_map, Hin. }
    rewrite Nat.eqb_refl. exists [], l. auto.
  - destruct Hin as [->|Hin]; [congruence|].
    destruct (IH Hnd' Hin) as [l1 [l2 [Hl Hrm]]].
    exists (v :: l1), l2. simpl. rewrite <- Hl, Hrm. auto.
Qed.

Lemma world_eta (w : World) :
  mkWorld (mkCollection (docs (db w)) (next_id (db w))) (rng w) = w.
Proof.
  destruct w as [[l n] pos]. reflexivity.
Qed.

(** X1.  [POST /delete/:id] removes a Link only for its owner.  When no
    Link has both that [_id] and the requester as [user], the state is
    returned as it was.  When the requester owns the Link, exactly that
    Link leaves the store, and [GET /:short] on its code then answers
    [NotFound]. *)
Theorem delete_only_by_owner uid id (w : World) :
  wf (db w) ->
  ((forall u, In u (docs (db w)) -> _id u = id -> user u <> uid) ->
   POST_delete (Some uid) id w = (redirect "/dashboard", w)) /\
  (forall u, In u (docs (db w)) -> _id u = id -> user u = uid ->
   exists l1 l2,
     docs (db w) = l1 ++ u :: l2 /\
     docs (db (snd (POST_delete (Some uid) id w))) = l1 ++ l2 /\
     next_id (db (snd (POST_delete (Some uid) id w))) = next_id (db w) /\
     fst (GET_short (shortUrl u) (snd (POST_delete (Some uid) id w)))
     = NotFound).
Proof.
  intros [Hcodes [Hids Hlt]]. split.
  - intros Hnone. unfold POST_delete, Model.findOneAndDelete.
    rewrite remove_first_none; [rewrite world_eta; reflexivity|].
    intros u Hin.
    destruct (Nat.eqb_spec (_id u) id) as [E|E]; [|reflexivity].
    simpl. apply Nat.eqb_neq. apply Hnone; assumption.
  - intros u Hin <- Huser.
    destruct (remove_first_unique_id uid _ u Hids Hin Huser)
      as [l1 [l2 [Hl Hrm]]].
    exists l1, l2.
    assert (Hdocs : docs (db (snd (POST_delete (Some uid) (_id u) w)))
                    = l1 ++ l2) by exact Hrm.
    split; [exact Hl|]. split; [exact Hdocs|]. split; [reflexivity|].
    unfold GET_short, Model.findOne. rewrite Hdocs.
    destruct (find (fun v => String.eqb (shortUrl v) (shortUrl u)) (l1 ++ l2))
      as [v|] eqn:E; [|reflexivity].
    exfalso. apply find_some in E. destruct E as [Hv Heq].
    apply String.eqb_eq in Heq.
    unfold unique_codes in Hcodes. rewrite Hl, map_app in Hcodes.
    simpl in Hcodes. apply NoDup_remove_2 in Hcodes. apply Hcodes.
    rewrite <- map_app, <- Heq. apply in_map, Hv.
Qed.

Lemma delete_only_by_owner_witness :
  POST_delete (Some 2) 1 busy_world = (redirect "/dashboard", busy_world) /\
  docs (db (snd (POST_delete (Some 1) 1 busy_world)))
  = [link 0 "https://a.example" "ABCDEF" 1 0].
Proof.
  split.
  - refine (proj1 (delete_only_by_owner 2 1 busy_world _) _).
    + sample_wf.
    + intros u [<-|[<-|[]]]; simpl; intros H; lia || discriminate.
  - destruct (proj2 (delete_only_by_owner 1 1 busy_world ltac:(sample_wf))
                (link 1 "https://b.example" "GHIJKL" 1 3))
      as [l1 [l2 _]]; [simpl; auto | reflexivity | reflexivity | reflexivity].
Defined.

(** X2.  Once its owner has deleted a Link, the code is free again: a
    request whose custom alias trims to that code creates a new Link under
    it, with a fresh [_id] and no clicks. *)
Theorem deleted_code_can_be_claimed_again
    random uid uid' full custom (w : World) u :
  wf (db w) ->
  In u (docs (db w)) ->
  user u = uid ->
  full <> EmptyString ->
  custom_alias custom = Some (shortUrl u) ->
  let w1 := snd (POST_delete (Some uid) (_id u) w) in
  POST_shorten random (Some uid') (Some full) custom w1
  = (redirect "/dashboard", created full (shortUrl u) uid' w1 (rng w1)) /\
  next_id (db w1) = next_id (db w).
Proof.
  intros Hwf Hin Huser Hfull Hcustom w1.
  destruct (proj2 (delete_only_by_owner uid (_id u) w Hwf) u Hin eq_refl Huser)
    as [l1 [l2 [_ [_ [Hnext Hgone]]]]].
  fold w1 in Hgone, Hnext. split; [|exact Hnext].
  rewrite (POST_shorten_custom _ _ _ _ (shortUrl u)) by assumption.
  unfold GET_short in Hgone.
  destruct (Model.findOne (shortUrl u) (db w1)); [discriminate | reflexivity].
Qed.

Lemma deleted_code_can_be_claimed_again_witness :
  let w1 := snd (POST_delete (Some 1) 1 busy_world) in
  POST_shorten tape_cycle (Some 2) (Some "https://new.example")
    (Some "GHIJKL ") w1
  = (redirect "/dashboard", created "https://new.example" "GHIJKL" 2 w1 0).
Proof.
  refine (proj1 (deleted_code_can_be_claimed_again tape_cycle 1 2
    "https://new.example" (Some "GHIJKL ") busy_world
    (link 1 "https://b.example" "GHIJKL" 1 3) _ _ _ _ _)).
  - sample_wf.
  - simpl. auto.
  - reflexivity.
  - discriminate.
  - reflexivity.
Defined.

(** ** The dashboard *)

Lemma fold_left_sum (l : list Url) : forall acc,
  fold_left (fun sum url => sum + clicks url) l acc
  = acc + list_sum (map clicks l).
Proof.
  induction l as [|u l IH]; intros acc; simpl; [lia|].
  rewrite IH. lia.
Qed.

Lemma GET_dashboard_totals uid (w : World) :
  GET_dashboard (Some uid) w
  = (render_dashboard (Model.find_user uid (db w))
       (list_sum (map clicks (Model.find_user uid (db w))))
       (List.length (Model.find_user uid (db w))),
     w).
Proof.
  unfold GET_dashboard. rewrite fold_left_sum. reflexivity.
Qed.


Lemma find_user_app uid l1 l2 n :
  Model.find_user uid (mkCollection (l1 ++ l2) n)
  = Model.find_user uid (mkCollection l1 n)
    ++ Model.find_user uid (mkCollection l2 n).
Proof.
  unfold Model.find_user. simpl. apply filter_app.
Qed.

(** A visit to a stored Link, on a well-formed store. *)
Lemma GET_short_found short (w : World) u :
  wf (db w) -> In u (docs (db w)) -> shortUrl u = short ->
  fst (GET_short short w) = redirect (fullUrl u) /\
  exists l1 l2,
    docs (db w) = l1 ++ u :: l2 /\
    docs (db (snd (GET_short short w)))
    = l1 ++ mkUrl (_id u) (fullUrl u) (shortUrl u) (user u) (clicks u + 1)
         :: l2.
Proof.
  intros [Hcodes [Hids _]] Hin <-. unfold GET_short.
  rewrite (findOne_unique _ _ Hcodes Hin). simpl. split; [reflexivity|].
  destruct (update_first_unique_id Model.inc_clicks _ _ Hids Hin)
    as [l1 [l2 [Hl Hup]]].
  exists l1, l2. split; [exact Hl|]. rewrite Hup.
  unfold Model.inc_clicks. rewrite Nat.add_1_r. reflexivity.
Qed.

(** X4.  One visit to a Link raises the click total on its owner's
    dashboard by exactly one and leaves the number of Links as it was; the
    dashboard of every other user is the same as before. *)
Theorem hit_adds_one_to_owner_total short (w : World) u :
  wf (db w) ->
  In u (docs (db w)) ->
  shortUrl u = short ->
  let w1 := snd (GET_short short w) in
  (forall urls total n,
     fst (GET_dashboard (Some (user u)) w) = render_dashboard urls total n ->
     exists urls',
       fst (GET_dashboard (Some (user u)) w1)
       = render_dashboard urls' (total + 1) n) /\
  (forall uid, uid <> user u ->
     fst (GET_dashboard (Some uid) w1) = fst (GET_dashboard (Some uid) w)).
Proof.
  intros Hwf Hin Hcode w1.
  destruct (GET_short_found short w u Hwf Hin Hcode) as [_ [l1 [l2 [Hl Hl']]]].
  fold w1 in Hl'.
  assert (Hdb : forall uid,
    Model.find_user uid (db w1)
    = filter (fun v => Nat.eqb (user v) uid) l1
      ++ filter (fun v => Nat.eqb (user v) uid)
           [mkUrl (_id u) (fullUrl u) (shortUrl u) (user u) (clicks u + 1)]
      ++ filter (fun v => Nat.eqb (user v) uid) l2).
  { intros uid. unfold Model.find_user. rewrite Hl'.
    rewrite filter_app. simpl.
    destruct (Nat.eqb (user u) uid); reflexivity. }
  assert (Hdb0 : forall uid,
    Model.find_user uid (db w)
    = filter (fun v => Nat.eqb (user v) uid) l1
      ++ filter (fun v => Nat.eqb (user v) uid) [u]
      ++ filter (fun v => Nat.eqb (user v) uid) l2).
  { intros uid. unfold Model.find_user. rewrite Hl.
    rewrite filter_app. simpl.
    destruct (Nat.eqb (user u) uid); reflexivity. }
  split.
  - intros urls total n. rewrite !GET_dashboard_totals. simpl fst.
    intros [= <- <- <-]. eexists. f_equal.
    + rewrite Hdb, Hdb0. simpl. rewrite Nat.eqb_refl.
      rewrite !map_app, !list_sum_app. simpl. lia.
    + rewrite Hdb, Hdb0. simpl. rewrite Nat.eqb_refl.
      rewrite !List.length_app. reflexivity.
  - intros uid Hne. rewrite !GET_dashboard_totals. simpl fst.
    rewrite Hdb, Hdb0. simpl.
    assert (E : Nat.eqb (user u) uid = false) by (apply Nat.eqb_neq; congruence).
    rewrite E. reflexivity.
Qed.

Lemma hit_adds_one_to_owner_total_witness :
  fst (GET_dashboard (Some 1) busy_world)
  = render_dashboard
      [link 0 "https://a.example" "ABCDEF" 1 0;
       link 1 "https://b.example" "GHIJKL" 1 3] 3 2 /\
  exists urls',
    fst (GET_dashboard (Some 1) (snd (GET_short "GHIJKL" busy_world)))
    = render_dashboard urls' (3 + 1) 2.
Proof.
  split; [reflexivity|].
  refine (proj1 (hit_adds_one_to_owner_total "GHIJKL" busy_world
                   (link 1 "https://b.example" "GHIJKL" 1 3) _ _ _) _ 3 2 _).
  - sample_wf.
  - simpl. auto.
  - reflexivity.
  - reflexivity.
Defined.

(** ** What one request at a time can answer *)

Lemma loop_reports_findOne random c m : forall attempts pos,
  attempts + S m = 5 ->
  let '(short, exists_, _, _) :=
    generate_until_unique random c attempts pos in
  exists_ = Model.findOne short c.
Proof.
  induction m as [|m IH]; intros attempts pos Hsum;
    destruct (Model.findOne (fst (generateCode random pos)) c) as [u|] eqn:E.
  - rewrite (loop_give_up _ _ _ _ u E) by lia. symmetry. exact E.
  - rewrite (loop_free _ _ _ _ E). symmetry. exact E.
  - rewrite (loop_again _ _ _ _ u E) by lia.
    apply IH. lia.
  - rewrite (loop_free _ _ _ _ E). symmetry. exact E.
Qed.

Lemma world_same (w : World) : mkWorld (db w) (rng w) = w.
Proof.
  destruct w. reflexivity.
Qed.

(** [POST /shorten] either leaves the store alone, or adds one Link for
    the requester under a code the store did not hold. *)
Lemma POST_shorten_outcome random uid fullUrl custom (w : World) :
  (exists res pos,
     POST_shorten random (Some uid) fullUrl custom w
     = (res, mkWorld (db w) pos) /\ res <> rejected) \/
  (exists full code pos,
     fullUrl = Some full /\
     Model.findOne code (db w) = None /\
     POST_shorten random (Some uid) fullUrl custom w
     = (redirect "/dashboard", created full code uid w pos)).
Proof.
  unfold POST_shorten.
  destruct fullUrl as [full|];
    [|left; exists (redirect "/dashboard"), (rng w); rewrite world_same;
      split; [reflexivity | discriminate]].
  destruct (String.eqb full EmptyString);
    [left; exists (redirect "/dashboard"), (rng w); rewrite world_same;
     split; [reflexivity | discriminate]|].
  destruct (custom_alias custom) as [short|].
  - destruct (Model.findOne short (db w)) eqn:E.
    + left. exists AliasTaken, (rng w). rewrite world_same.
      split; [reflexivity | discriminate].
    + right. exists full, short, (rng w). unfold create_and_redirect.
      rewrite (create_free _ _ _ _ E). auto.
  - pose proof (loop_reports_findOne random (db w) 4 0 (rng w) eq_refl) as H.
    destruct (generate_until_unique random (db w) 0 (rng w))
      as [[[short e] n] pos].
    destruct e as [v|].
    + left. exists AllocationExhausted, pos. split; [reflexivity | discriminate].
    + right. exists full, short, pos. unfold create_and_redirect. simpl db.
      symmetry in H. rewrite (create_free _ _ _ _ H). auto.
Qed.


(** X6.  After [POST /shorten] the dashboard of every user is what it was,
    except that a Link the request created is added, with no clicks, at the
    end of its creator's list. *)
Theorem new_link_shows_on_dashboard
    random uid fullUrl custom (w : World) uid' urls total n :
  fst (GET_dashboard (Some uid') w) = render_dashboard urls total n ->
  let w1 := snd (POST_shorten random (Some uid) fullUrl custom w) in
  (db w1 = db w /\
   fst (GET_dashboard (Some uid') w1) = render_dashboard urls total n) \/
  (exists full code,
     fullUrl = Some full /\
     Model.findOne code (db w) = None /\
     docs (db w1) = docs (db w) ++ [mkUrl (next_id (db w)) full code uid 0] /\
     fst (GET_dashboard (Some uid') w1)
     = if Nat.eqb uid uid'
       then render_dashboard
              (urls ++ [mkUrl (next_id (db w)) full code uid 0]) total (S n)
       else render_dashboard urls total n).
Proof.
  intros H w1. rewrite GET_dashboard_totals in H. simpl fst in H.
  injection H as <- <- <-.
  destruct (POST_shorten_outcome random uid fullUrl custom w)
    as [[res [pos [E Hres]]] | [full [code [pos [Hfull [Hfree E]]]]]];
    subst w1; rewrite E; simpl snd.
  - left. split; [reflexivity|]. rewrite GET_dashboard_totals. reflexivity.
  - right. exists full, code. repeat split; try assumption.
    rewrite GET_dashboard_totals. simpl fst.
    unfold Model.find_user, created. simpl. rewrite filter_app. simpl.
    destruct (Nat.eqb uid uid').
    + rewrite map_app, list_sum_app, List.length_app. simpl.
      f_equal; lia.
    + rewrite app_nil_r. reflexivity.
Qed.

Lemma new_link_shows_on_dashboard_witness :
  fst (GET_dashboard (Some 7)
         (snd (POST_shorten tape_cycle (Some 7) (Some "https://example.com")
                 (Some "my-link") busy_world)))
  = render_dashboard [mkUrl 2 "https://example.com" "my-link" 7 0] 0 1.
Proof.
  destruct (new_link_shows_on_dashboard tape_cycle 7
              (Some "https://example.com") (Some "my-link") busy_world
              7 [] 0 0 eq_refl)
    as [[Hdb _] | [full [code [_ [_ [_ H]]]]]].
  - vm_compute in Hdb. discriminate Hdb.
  - reflexivity.
Defined.

(** ** What stays of a Link *)

Section Persistence.

Variable random : nat -> Q.

Lemma step_task_doc t (w : World) id u u' :
  wf (db w) ->
  findById id (db w) = Some u ->
  findById id (db (snd (step_task random t w))) = Some u' ->
  u' = u \/ u' = Model.inc_clicks u.
Proof.
  intros [_ [Hids _]] Hu Hu'.
  destruct (step_task_db random t w)
    as [E | [[full [short [uid E]]] | [[url [Ht E]] | [id0 [uid [_ E]]]]]].
  - rewrite E, Hu in Hu'. injection Hu' as <-. auto.
  - rewrite (findById_create _ _ _ _ _ _ _ E Hu) in Hu'.
    injection Hu' as <-. auto.
  - rewrite E, findById_inc, Hu in Hu'.
    destruct (Nat.eqb id (_id url)); simpl in Hu'; injection Hu' as <-; auto.
  - rewrite E in Hu'. left. eapply findById_delete; eassumption.
Qed.

Lemma step_task_next_id t (w : World) :
  next_id (db w) <= next_id (db (snd (step_task random t w))).
Proof.
  destruct (step_task_db random t w)
    as [E | [[full [short [uid E]]] | [[url [_ E]] | [id0 [uid [_ E]]]]]].
  - rewrite E. lia.
  - unfold Model.create in E.
    destruct (existsb _ (docs (db w))); [discriminate|].
    injection E as E. rewrite <- E. simpl. lia.
  - rewrite E. simpl. lia.
  - rewrite E. simpl. lia.
Qed.

Lemma run_doc sched : forall (cfg : Config) id u u',
  wf (db (fst cfg)) ->
  findById id (db (fst cfg)) = Some u ->
  findById id (db (fst (run random sched cfg))) = Some u' ->
  fullUrl u' = fullUrl u /\ shortUrl u' = shortUrl u /\ user u' = user u /\
  clicks u <= clicks u'.
Proof.
  induction sched as [|i sched IH]; intros cfg id u u' Hwf Hu Hu'.
  - simpl in Hu'. rewrite Hu in Hu'. injection Hu' as <-. auto.
  - change (run random (i :: sched) cfg)
      with (run random sched (step random i cfg)) in Hu'.
    destruct (step_cases random i cfg) as [E | [t [ts' [Ew _]]]].
    + rewrite E in Hu'. eapply IH; eassumption.
    + assert (Hwf' : wf (db (fst (step random i cfg))))
        by (rewrite Ew; apply step_task_wf, Hwf).
      destruct (findById id (db (fst (step random i cfg)))) as [m|] eqn:Hm.
      * destruct (IH _ _ _ _ Hwf' Hm Hu') as [H1 [H2 [H3 H4]]].
        rewrite Ew in Hm.
        destruct (step_task_doc t (fst cfg) id u m Hwf Hu Hm) as [->| ->];
          simpl in *; repeat split; try assumption; lia.
      * exfalso.
        rewrite (run_dead random sched (step random i cfg) id) in Hu';
          [discriminate | | exact Hm].
        apply findById_In in Hu. destruct Hu as [Hin Hid].
        destruct Hwf as [_ [_ Hlt]]. rewrite Forall_forall in Hlt.
        specialize (Hlt u Hin). rewrite Hid in Hlt. rewrite Ew.
        pose proof (step_task_next_id t (fst cfg)). lia.
Qed.

End Persistence.

(** X7.  Whatever requests are in flight and in whatever order they take
    their turns, a Link that is in the store before and after has the same
    code, target and owner; only its click count may differ, and it is not
    lower. *)
Theorem links_are_immutable random sched (cfg : Config) id u u' :
  wf (db (fst cfg)) ->
  findById id (db (fst cfg)) = Some u ->
  findById id (db (fst (run random sched cfg))) = Some u' ->
  fullUrl u' = fullUrl u /\ shortUrl u' = shortUrl u /\ user u' = user u /\
  clicks u <= clicks u'.
Proof.
  apply run_doc.
Qed.

Lemma links_are_immutable_witness :
  let u' := link 1 "https://b.example" "GHIJKL" 1 6 in
  findById 1
    (db (fst (run tape_cycle visiting_schedule
                (busy_world, map arrived visiting_requests))))
  = Some u' /\
  fullUrl u' = "https://b.example" /\ shortUrl u' = "GHIJKL" /\
  user u' = 1 /\ 3 <= clicks u'.
Proof.
  cbv zeta. split; [reflexivity|].
  refine (links_are_immutable tape_cycle visiting_schedule
            (busy_world, map arrived visiting_requests) 1
            (link 1 "https://b.example" "GHIJKL" 1 3) _ _ _ _).
  - sample_wf.
  - reflexivity.
  - reflexivity.
Defined.

(** X8.  As long as no delete is in flight, a Link in the store stays
    reachable: after any turns of any other requests, [GET /:short] on its
    code still redirects to its target. *)
Theorem links_stay_reachable_without_delete random sched ts (w : World) u :
  wf (db w) ->
  In u (docs (db w)) ->
  forallb keeps_links ts = true ->
  fst (GET_short (shortUrl u) (fst (run random sched (w, ts))))
  = redirect (fullUrl u).
Proof.
  intros Hwf Hin Hkeep.
  assert (Hholds : holds (shortUrl u) (_id u) (fullUrl u) (db w) (clicks u))
    by (exists u; auto).
  destruct (run_hits random (shortUrl u) (_id u) (fullUrl u) sched (w, ts)
              (clicks u) Hwf Hholds Hkeep)
    as [n [[u' [Hin' [Hcode [_ [Hfull _]]]]] _]].
  assert (Hwf' : wf (db (fst (run random sched (w, ts))))).
  { apply (run_invariant random (fun w => wf (db w))); [|exact Hwf].
    intros t w'. apply step_task_wf. }
  destruct (GET_short_found _ _ u' Hwf' Hin' Hcode) as [H _].
  rewrite H, Hfull. reflexivity.
Qed.

Lemma links_stay_reachable_without_delete_witness :
  fst (GET_short "ABCDEF"
         (fst (run tape_cycle visiting_schedule
                 (busy_world, map arrived visiting_requests))))
  = redirect "https://a.example".
Proof.
  refine (links_stay_reachable_without_delete tape_cycle visiting_schedule
            (map arrived visiting_requests) busy_world
            (link 0 "https://a.example" "ABCDEF" 1 0) _ _ _).
  - sample_wf.
  - simpl. auto.
  - reflexivity.
Defined.

(** ** A visit that races with a delete *)

Lemma update_first_none p f (l : list Url) :
  (forall u, In u l -> p u = false) -> Model.update_first p f l = l.
Proof.
  induction l as [|v l IH]; intros H; simpl; [reflexivity|].
  rewrite (H v (or_introl eq_refl)). f_equal. apply IH.
  intros u Hu. apply H. right. exact Hu.
Qed.

Lemma inc_missing id (c : Collection) :
  findById id c = None -> Model.findByIdAndUpdate_inc id c = c.
Proof.
  intros H. unfold Model.findByIdAndUpdate_inc.
  rewrite update_first_none; [destruct c; reflexivity|].
  intros u Hin. exact (find_none _ _ H u Hin).
Qed.

(** X9.  The [$inc] of a visit whose Link has been deleted since the
    lookup changes nothing, and the visitor is still redirected.  So when a
    visit and the owner's delete of the same Link interleave with the
    lookup first, the delete next and the [$inc] last, the store ends up as
    the delete alone leaves it and both requests are answered normally. *)
Theorem hit_racing_with_delete_is_dropped random (w : World) :
  (forall url,
     findById (_id url) (db w) = None ->
     step_task random (await_findByIdAndUpdate url) w
     = (responded (redirect (fullUrl url)), w)) /\
  (forall u,
     wf (db w) -> In u (docs (db w)) ->
     exists l1 l2,
       docs (db w) = l1 ++ u :: l2 /\
       run random [0; 0; 1; 1; 0]
         (w, [arrived (get_short (shortUrl u));
              arrived (post_delete (Some (user u)) (_id u))])
       = (mkWorld (mkCollection (l1 ++ l2) (next_id (db w))) (rng w),
          [responded (redirect (fullUrl u));
           responded (redirect "/dashboard")])).
Proof.
  split.
  - intros url H. cbn [step_task]. rewrite (inc_missing _ _ H), world_same.
    reflexivity.
  - intros u [Hcodes [Hids Hlt]] Hin.
    destruct (remove_first_unique_id (user u) _ u Hids Hin eq_refl)
      as [l1 [l2 [Hl Hrm]]].
    exists l1, l2. split; [exact Hl|].
    unfold run, step. cbn [fold_left step_nth fst snd step_task start].
    rewrite (findOne_unique _ _ Hcodes Hin).
    cbn [fold_left step_nth fst snd step_task start db rng].
    unfold Model.findOneAndDelete at 1. rewrite Hrm.
    unfold Model.findByIdAndUpdate_inc. cbn [docs next_id].
    rewrite update_first_none; [reflexivity|].
    intros v Hv. apply Nat.eqb_neq. intros E.
    rewrite Hl, map_app in Hids. simpl in Hids.
    apply NoDup_remove_2 in Hids. apply Hids.
    rewrite <- map_app, <- E. apply in_map, Hv.
Qed.

Lemma hit_racing_with_delete_is_dropped_witness :
  run tape_cycle [0; 0; 1; 1; 0]
    (busy_world,
     [arrived (get_short "GHIJKL"); arrived (post_delete (Some 1) 1)])
  = (mkWorld (mkCollection [link 0 "https://a.example" "ABCDEF" 1 0] 2) 0,
     [responded (redirect "https://b.example");
      responded (redirect "/dashboard")]).
Proof.
  destruct (proj2 (hit_racing_with_delete_is_dropped tape_cycle busy_world)
              (link 1 "https://b.example" "GHIJKL" 1 3))
    as [l1 [l2 [_ H]]].
  - sample_wf.
  - simpl. auto.
  - reflexivity.
Defined.

(** ** Which codes the generator produces *)











(** ** Accounts and sessions *)

Section Accounts.

Import Account.

Variable random : nat -> Q.
Variable sign : Payload -> string.
Variable verify : string -> option Payload.
Variable hash : nat -> string -> string.
Variable compare : string -> string -> bool.

Lemma site_eta (s : Site) :
  mkSite (world s) (users s) (next_user s) (bcrypt_calls s) = s.
Proof.
  destruct s. reflexivity.
Qed.

Lemma authMiddleware_none cookie :
  (forall token, cookie = Some token ->
     token = EmptyString \/ verify token = None) ->
  fst (authMiddleware verify cookie) = None.
Proof.
  intros H. unfold authMiddleware. destruct cookie as [token|]; [|reflexivity].
  simpl. destruct (String.eqb_spec token EmptyString) as [E|E]; [reflexivity|].
  simpl. destruct (H token eq_refl) as [H'|H']; [contradiction|].
  rewrite H'. reflexivity.
Qed.

Lemma authMiddleware_valid token payload :
  token <> EmptyString -> verify token = Some payload ->
  authMiddleware verify (Some token) = (Some payload, false).
Proof.
  intros Hne Hv. unfold authMiddleware. simpl.
  apply String.eqb_neq in Hne. rewrite Hne, Hv. reflexivity.
Qed.

Lemma findOne_user_added e (us : list User) u :
  findOne e us = None -> email u = e -> findOne e (us ++ [u]) = Some u.
Proof.
  intros Hnone He. unfold findOne in *.
  rewrite (find_app_none _ _ _ Hnone). simpl.
  rewrite He, String.eqb_refl. reflexivity.
Qed.

End Accounts.

(** X12.  [POST /login] sets the [token] cookie exactly when a user with
    that e-mail exists and [bcrypt.compare] accepts the password against
    the stored hash; the token then signs that user's [_id], [name] and
    [email].  It never clears the cookie and never changes the state. *)
Theorem login_needs_valid_credentials sign compare usr e p (s : Account.Site) :
  snd (Account.POST_login sign compare usr e p s) = s /\
  snd (fst (Account.POST_login sign compare usr e p s))
  <> Account.clearCookie_token /\
  (forall token,
     snd (fst (Account.POST_login sign compare usr e p s))
     = Account.cookie_token token <->
     exists u,
       Account.findOne e (Account.users s) = Some u /\
       compare p (Account.password u) = true /\
       token = sign (Account.mkPayload (Account._id u) (Account.name u)
                       (Account.email u))) /\
  (fst (fst (Account.POST_login sign compare usr e p s))
   = Account.redirected "/dashboard" <->
   exists token,
     snd (fst (Account.POST_login sign compare usr e p s))
     = Account.cookie_token token).
Proof.
  unfold Account.POST_login.
  destruct (Account.findOne e (Account.users s)) as [u|].
  - destruct (compare p (Account.password u)) eqn:Hc; simpl.
    + repeat split; try discriminate.
      * intros [= <-]. exists u. auto.
      * intros [u' [[= <-] [_ ->]]]. reflexivity.
      * intros _. eexists. reflexivity.
    + repeat split; try discriminate.
      * intros [u' [[= <-] [Hc' _]]]. congruence.
      * intros [token H]. discriminate H.
  - simpl. repeat split; try discriminate.
    + intros [u' [H _]]. discriminate H.
    + intros [token H]. discriminate H.
Qed.

(** X13.  A user who registers with an e-mail not yet in use can log in
    with the same password, whatever salt [bcrypt.hash] drew, and receives
    the token of the account just created; a password the stored hash does
    not match is refused.  ([bcrypt.compare] is assumed to accept a
    password against its own hash.) *)
Theorem register_then_login sign hash compare usr usr' n e p (s : Account.Site) :
  (forall k, compare p (hash k p) = true) ->
  Account.findOne e (Account.users s) = None ->
  let s1 := snd (Account.POST_register hash usr n e p s) in
  Account.POST_register hash usr n e p s
  = (Account.redirected "/login", Account.untouched, s1) /\
  Account.world s1 = Account.world s /\
  Account.POST_login sign compare usr' e p s1
  = (Account.redirected "/dashboard",
     Account.cookie_token
       (sign (Account.mkPayload (Account.next_user s) n e)),
     s1) /\
  (forall p',
     compare p' (hash (Account.bcrypt_calls s) p) = false ->
     Account.POST_login sign compare usr' e p' s1
     = (Account.render_form "login" "Invalid credentials" usr',
        Account.untouched, s1)).
Proof.
  intros Hcompare Hnew s1.
  pose (u := Account.mkUser (Account.next_user s) n e
               (hash (Account.bcrypt_calls s) p)).
  assert (Hreg : Account.POST_register hash usr n e p s
                 = (Account.redirected "/login", Account.untouched,
                    Account.mkSite (Account.world s)
                      (Account.users s ++ [u])
                      (S (Account.next_user s))
                      (S (Account.bcrypt_calls s)))).
  { unfold Account.POST_register. rewrite Hnew. reflexivity. }
  subst s1. rewrite Hreg. cbn [snd].
  assert (Hfind : Account.findOne e (Account.users s ++ [u]) = Some u)
    by (apply findOne_user_added; [exact Hnew | reflexivity]).
  repeat split.
  - unfold Account.POST_login. cbn [Account.users]. rewrite Hfind.
    cbn [Account.password u]. rewrite Hcompare. reflexivity.
  - intros p' Hp'. unfold Account.POST_login. cbn [Account.users].
    rewrite Hfind. cbn [Account.password u]. rewrite Hp'. reflexivity.
Qed.

Lemma register_then_login_witness :
  let s0 := Account.mkSite empty_world [] 0 0 in
  let hash := fun (k : nat) (p : string) => ("$2a$" ++ p)%string in
  let compare := fun p h => String.eqb ("$2a$" ++ p)%string h in
  Account.POST_login (fun _ => "jwt") compare None "ann@example.com" "s3cret"
    (snd (Account.POST_register hash None "Ann" "ann@example.com" "s3cret" s0))
  = (Account.redirected "/dashboard", Account.cookie_token "jwt",
     snd (Account.POST_register hash None "Ann" "ann@example.com" "s3cret" s0)).
Proof.
  cbv zeta.
  refine (proj1 (proj2 (proj2 (register_then_login (fun _ => "jwt")
    (fun (k : nat) (p : string) => ("$2a$" ++ p)%string)
    (fun p h => String.eqb ("$2a$" ++ p)%string h)
    None None "Ann" "ann@example.com" "s3cret"
    (Account.mkSite empty_world [] 0 0) _ _)))).
  - intros k. reflexivity.
  - reflexivity.
Defined.

(** X14.  Registration keeps e-mails unique: an e-mail already in use is
    refused with the state unchanged, and from pairwise distinct e-mails
    the users' e-mails stay pairwise distinct.  A registration never
    touches the links. *)
Theorem register_keeps_emails_unique hash usr n e p (s : Account.Site) :
  (In e (map Account.email (Account.users s)) ->
   Account.POST_register hash usr n e p s
   = (Account.render_form "register" "Email already exists" usr,
      Account.untouched, s)) /\
  (NoDup (map Account.email (Account.users s)) ->
   NoDup (map Account.email
            (Account.users (snd (Account.POST_register hash usr n e p s))))) /\
  Account.world (snd (Account.POST_register hash usr n e p s))
  = Account.world s.
Proof.
  unfold Account.POST_register.
  destruct (Account.findOne e (Account.users s)) as [u|] eqn:E.
  - simpl. repeat split; auto.
  - simpl. repeat split.
    + intros Hin. exfalso. apply in_map_iff in Hin.
      destruct Hin as [u [Hu Hin]].
      pose proof (find_none _ _ E u Hin) as Hn. simpl in Hn.
      apply String.eqb_neq in Hn. contradiction.
    + intros Hnd. rewrite map_app. simpl. apply NoDup_snoc; [exact Hnd|].
      intros Hin. apply in_map_iff in Hin. destruct Hin as [u [Hu Hin]].
      pose proof (find_none _ _ E u Hin) as Hn. simpl in Hn.
      apply String.eqb_neq in Hn. contradiction.
Qed.

Lemma register_keeps_emails_unique_witness :
  let s1 := snd (Account.POST_register (fun _ p => p) None "Ann"
                   "ann@example.com" "s3cret"
                   (Account.mkSite empty_world [] 0 0)) in
  Account.POST_register (fun _ p => p) None "Bob" "ann@example.com" "hunter2" s1
  = (Account.render_form "register" "Email already exists" None,
     Account.untouched, s1).
Proof.
  cbv zeta.
  refine (proj1 (register_keeps_emails_unique (fun _ p => p) None "Bob"
    "ann@example.com" "hunter2" _) _).
  simpl. auto.
Defined.

(** X15.  Without a token that [jwt.verify] accepts (no cookie, an empty
    one, or one it rejects) the dashboard, [POST /shorten] and
    [POST /delete/:id] answer with the redirect to [/login] and leave the
    whole state as it was; a non-empty cookie that was rejected is
    cleared. *)
Theorem protected_routes_need_a_valid_token
    random sign verify hash compare cookie r (s : Account.Site) :
  (forall token, cookie = Some token ->
     token = EmptyString \/ verify token = None) ->
  (r = Account.dashboard \/
   (exists fullUrl custom, r = Account.shorten fullUrl custom) \/
   (exists i, r = Account.delete i)) ->
  fst (fst (Account.serve random sign verify hash compare cookie r s))
  = Account.answered (redirect "/login") /\
  snd (Account.serve random sign verify hash compare cookie r s) = s /\
  (forall token, cookie = Some token -> token <> EmptyString ->
     snd (fst (Account.serve random sign verify hash compare cookie r s))
     = Account.clearCookie_token).
Proof.
  intros Hbad Hr.
  assert (Hauth : exists cleared,
            Account.authMiddleware verify cookie = (None, cleared) /\
            (forall token, cookie = Some token -> token <> EmptyString ->
               cleared = true)).
  { pose proof (authMiddleware_none verify cookie Hbad) as H.
    destruct (Account.authMiddleware verify cookie) as [usr cleared] eqn:E.
    simpl in H. subst usr. exists cleared. split; [reflexivity|].
    intros token -> Hne. unfold Account.authMiddleware in E. simpl in E.
    apply String.eqb_neq in Hne. rewrite Hne in E. simpl in E.
    destruct (Hbad token eq_refl) as [H|H];
      [apply String.eqb_neq in Hne; contradiction|].
    rewrite H in E. injection E as <-. reflexivity. }
  destruct Hauth as [cleared [Hauth Hcleared]].
  unfold Account.serve. rewrite Hauth.
  destruct Hr as [-> | [[fullUrl [custom ->]] | [i ->]]];
    unfold Account.link_handler; simpl; rewrite site_eta;
    (repeat split; intros token Hc Hne; rewrite (Hcleared token Hc Hne);
     reflexivity).
Qed.

Lemma protected_routes_need_a_valid_token_witness :
  Account.serve tape_cycle (fun _ => "jwt") (fun _ => None)
    (fun _ p => p) String.eqb (Some "forged")
    (Account.shorten (Some "https://example.com") (Some "promo"))
    (Account.mkSite busy_world [] 0 0)
  = (Account.answered (redirect "/login"), Account.clearCookie_token,
     Account.mkSite busy_world [] 0 0).
Proof.
  destruct (protected_routes_need_a_valid_token tape_cycle (fun _ => "jwt")
              (fun _ => None) (fun _ p => p) String.eqb (Some "forged")
              (Account.shorten (Some "https://example.com") (Some "promo"))
              (Account.mkSite busy_world [] 0 0))
    as [H1 [H2 H3]].
  - intros token _. right. reflexivity.
  - right. left. eexists _, _. reflexivity.
  - specialize (H3 "forged" eq_refl ltac:(discriminate)).
    destruct (Account.serve _ _ _ _ _ _ _ _) as [[rep ck] s'].
    simpl in *. subst. reflexivity.
Defined.

(** X16.  A session from log-in to log-out.  A browser without a cookie
    logs in with valid credentials, shortens a URL, logs out and asks for
    the dashboard: the log-in sets the token, the shorten request is
    handled as that user's (the token is assumed non-empty and accepted by
    [jwt.verify] with the payload signed), the log-out drops the cookie,
    and the dashboard request is sent to [/login]. *)
Theorem session_from_login_to_logout
    random sign verify hash compare e p fullUrl custom (s : Account.Site) u :
  Account.findOne e (Account.users s) = Some u ->
  compare p (Account.password u) = true ->
  let payload :=
    Account.mkPayload (Account._id u) (Account.name u) (Account.email u) in
  sign payload <> EmptyString ->
  verify (sign payload) = Some payload ->
  Account.browse random sign verify hash compare None
    [Account.login e p; Account.shorten fullUrl custom; Account.logout;
     Account.dashboard] s
  = ([Account.redirected "/dashboard";
      Account.answered
        (fst (POST_shorten random (Some (Account._id u)) fullUrl custom
                (Account.world s)));
      Account.redirected "/";
      Account.answered (redirect "/login")],
     None,
     Account.mkSite
       (snd (POST_shorten random (Some (Account._id u)) fullUrl custom
               (Account.world s)))
       (Account.users s) (Account.next_user s) (Account.bcrypt_calls s)).
Proof.
  intros Hfind Hcompare payload Hne Hverify.
  cbn [Account.browse].
  assert (Hlogin : Account.serve random sign verify hash compare None
                     (Account.login e p) s
                   = (Account.redirected "/dashboard",
                      Account.cookie_token (sign payload), s)).
  { unfold Account.serve, Account.POST_login. simpl.
    rewrite Hfind, Hcompare. reflexivity. }
  rewrite Hlogin. cbn [Account.apply_cookie].
  assert (Hshorten : Account.serve random sign verify hash compare
                       (Some (sign payload))
                       (Account.shorten fullUrl custom) s
                     = (Account.answered
                          (fst (POST_shorten random (Some (Account._id u))
                                  fullUrl custom (Account.world s))),
                        Account.untouched,
                        Account.mkSite
                          (snd (POST_shorten random (Some (Account._id u))
                                  fullUrl custom (Account.world s)))
                          (Account.users s) (Account.next_user s)
                          (Account.bcrypt_calls s))).
  { unfold Account.serve.
    rewrite (authMiddleware_valid verify _ payload Hne Hverify).
    unfold Account.link_handler. cbn [handle option_map Account.id payload].
    destruct (POST_shorten random (Some (Account._id u)) fullUrl custom
                (Account.world s)) as [res w'].
    reflexivity. }
  rewrite Hshorten. cbn [Account.apply_cookie].
  unfold Account.serve at 1.
  rewrite (authMiddleware_valid verify _ payload Hne Hverify).
  cbn [Account.apply_cookie].
  reflexivity.
Qed.

Lemma session_from_login_to_logout_witness :
  let ann := Account.mkUser 0 "Ann" "ann@example.com" "s3cret" in
  let payload := Account.mkPayload 0 "Ann" "ann@example.com" in
  let s := Account.mkSite busy_world [ann] 1 1 in
  Account.browse tape_cycle (fun _ => "jwt")
    (fun t => if String.eqb t "jwt" then Some payload else None)
    (fun _ p => p) String.eqb None
    [Account.login "ann@example.com" "s3cret";
     Account.shorten (Some "https://example.com") (Some "promo");
     Account.logout; Account.dashboard] s
  = ([Account.redirected "/dashboard";
      Account.answered (redirect "/dashboard");
      Account.redirected "/";
      Account.answered (redirect "/login")],
     None,
     Account.mkSite (created "https://example.com" "promo" 0 busy_world 0)
       [ann] 1 1).
Proof.
  cbv zeta.
  refine (session_from_login_to_logout tape_cycle (fun _ => "jwt")
    (fun t => if String.eqb t "jwt"
              then Some (Account.mkPayload 0 "Ann" "ann@example.com")
              else None)
    (fun _ p => p) String.eqb "ann@example.com" "s3cret"
    (Some "https://example.com") (Some "promo")
    (Account.mkSite busy_world
       [Account.mkUser 0 "Ann" "ann@example.com" "s3cret"] 1 1)
    (Account.mkUser 0 "Ann" "ann@example.com" "s3cret") _ _ _ _).
  - reflexivity.
  - reflexivity.
  - discriminate.
  - reflexivity.
Defined.

(** ** The prototype *)

Lemma find_unique_key {A} (key : A -> string) (l : list A) x :
  NoDup (map key l) -> In x l ->
  find (fun v => String.eqb (key v) (key x)) l = Some x.
Proof.
  induction l as [|v l IH]; intros Hnd Hin; [contradiction|].
  simpl in Hnd. inversion Hnd as [|? ? Hnotin Hnd']; subst.
  simpl. destruct (String.eqb_spec (key v) (key x)) as [E|E].
  - destruct Hin as [->|Hin]; [reflexivity|].
    exfalso. apply Hnotin. rewrite E. apply in_map, Hin.
  - destruct Hin as [->|Hin]; [congruence|]. apply IH; assumption.
Qed.

Lemma find_absent_key {A} (key : A -> string) (l : list A) k :
  ~ In k (map key l) -> find (fun v => String.eqb (key v) k) l = None.
Proof.
  intros Hk. destruct (find _ l) as [v|] eqn:E; [|reflexivity].
  exfalso. apply find_some in E. destruct E as [Hin Heq].
  apply String.eqb_eq in Heq. apply Hk. rewrite <- Heq. apply in_map, Hin.
Qed.

(** X17.  The prototype's [POST /shorten] stores a URL once: a second
    request for a URL answers with the record the first one answered with
    and leaves the store as it is, so stored URLs stay pairwise
    distinct. *)
Theorem prototype_shorten_is_idempotent isURL generate original st :
  isURL original = true ->
  let r1 := fst (Prototype.POST_shorten isURL generate original st) in
  let st1 := snd (Prototype.POST_shorten isURL generate original st) in
  Prototype.POST_shorten isURL generate original st1 = (r1, st1) /\
  (exists url, r1 = Prototype.json url /\ Prototype.originalUrl url = original /\
               In url (fst st1)) /\
  (NoDup (map Prototype.originalUrl (fst st)) ->
   NoDup (map Prototype.originalUrl (fst st1))).
Proof.
  intros Hurl r1 st1. subst r1 st1. unfold Prototype.POST_shorten.
  rewrite Hurl. cbn [negb].
  destruct (find (fun u => String.eqb (Prototype.originalUrl u) original)
              (fst st)) as [url|] eqn:E.
  - cbn [fst snd]. rewrite E. repeat split; [|auto].
    exists url. apply find_some in E. destruct E as [Hin Heq].
    apply String.eqb_eq in Heq. auto.
  - cbn [fst snd].
    rewrite (find_app_none _ _ _ E). simpl. rewrite String.eqb_refl.
    repeat split.
    + eexists. repeat split. apply in_or_app. right. left. reflexivity.
    + intros Hnd. rewrite map_app. simpl. apply NoDup_snoc; [exact Hnd|].
      intros Hin. apply in_map_iff in Hin. destruct Hin as [v [Hv Hin]].
      pose proof (find_none _ _ E v Hin) as Hn. simpl in Hn.
      apply String.eqb_neq in Hn. contradiction.
Qed.

Lemma prototype_shorten_is_idempotent_witness :
  let isURL := fun s => String.prefix "http" s in
  let generate := fun n : nat => if Nat.eqb n 0 then "aB3" else "xY9" in
  let st1 := snd (Prototype.POST_shorten isURL generate "http://a.example"
                    ([], 0)) in
  Prototype.POST_shorten isURL generate "http://a.example" st1
  = (Prototype.json
       (Prototype.mkUrl "http://a.example" "aB3" "http://localhost:5000/aB3"),
     st1).
Proof.
  cbv zeta.
  refine (proj1 (prototype_shorten_is_idempotent
    (fun s => String.prefix "http" s)
    (fun n : nat => if Nat.eqb n 0 then "aB3" else "xY9")
    "http://a.example" ([], 0) _)).
  reflexivity.
Defined.

(** X18.  Round trip in the prototype.  When the stored [shortId]s are
    pairwise distinct and the id [shortid.generate] returns next is not
    among them, the record [POST /shorten] answers with resolves:
    [GET /:shortId] on its [shortId] redirects to the URL that was
    submitted, and the [shortId]s stay pairwise distinct.  An id no record
    has is answered 404. *)
Theorem prototype_round_trip isURL generate original st :
  isURL original = true ->
  NoDup (map Prototype.shortId (fst st)) ->
  ~ In (generate (snd st)) (map Prototype.shortId (fst st)) ->
  let st1 := snd (Prototype.POST_shorten isURL generate original st) in
  (exists url,
     fst (Prototype.POST_shorten isURL generate original st)
     = Prototype.json url /\
     PrototypeRedirect.GET_shortId (Prototype.shortId url) st1
     = PrototypeRedirect.redirect original) /\
  NoDup (map Prototype.shortId (fst st1)) /\
  (forall id, ~ In id (map Prototype.shortId (fst st1)) ->
     PrototypeRedirect.GET_shortId id st1
     = PrototypeRedirect.status_404 "URL not found").
Proof.
  intros Hurl Hnd Hfresh st1. subst st1. unfold Prototype.POST_shorten.
  rewrite Hurl. cbn [negb].
  assert (H404 : forall l (n : nat) id, ~ In id (map Prototype.shortId l) ->
            PrototypeRedirect.GET_shortId id (l, n)
            = PrototypeRedirect.status_404 "URL not found").
  { intros l n id Hid. unfold PrototypeRedirect.GET_shortId. cbn [fst].
    rewrite (find_absent_key Prototype.shortId l id Hid). reflexivity. }
  destruct (find (fun u => String.eqb (Prototype.originalUrl u) original)
              (fst st)) as [url|] eqn:E.
  - cbn [fst snd]. split; [|split; [exact Hnd | destruct st; apply H404]].
    exists url. split; [reflexivity|].
    apply find_some in E. destruct E as [Hin Heq].
    apply String.eqb_eq in Heq.
    unfold PrototypeRedirect.GET_shortId.
    rewrite (find_unique_key Prototype.shortId _ url Hnd Hin), Heq.
    reflexivity.
  - cbn [fst snd]. split; [|split; [|apply H404]].
    + eexists. split; [reflexivity|].
      unfold PrototypeRedirect.GET_shortId. cbn [fst Prototype.shortId].
      rewrite (find_app_none _ _ _
                 (find_absent_key Prototype.shortId _ _ Hfresh)).
      simpl. rewrite String.eqb_refl. reflexivity.
    + rewrite map_app. simpl. apply NoDup_snoc; assumption.
Qed.

Lemma prototype_round_trip_witness :
  let isURL := fun s => String.prefix "http" s in
  let generate := fun n : nat => if Nat.eqb n 0 then "aB3" else "xY9" in
  let st1 := snd (Prototype.POST_shorten isURL generate "http://a.example"
                    ([], 0)) in
  exists url,
    fst (Prototype.POST_shorten isURL generate "http://b.example" st1)
    = Prototype.json url /\
    PrototypeRedirect.GET_shortId (Prototype.shortId url)
      (snd (Prototype.POST_shorten isURL generate "http://b.example" st1))
    = PrototypeRedirect.redirect "http://b.example".
Proof.
  cbv zeta.
  refine (proj1 (prototype_round_trip
    (fun s => String.prefix "http" s)
    (fun n : nat => if Nat.eqb n 0 then "aB3" else "xY9")
    "http://b.example" _ _ _ _)).
  - reflexivity.
  - simpl. repeat constructor. simpl. tauto.
  - simpl. intros [H|[]]. discriminate H.
Defined.

(** ** Two requests for one alias at the same time *)

Lemma create_taken full short uid (c : Collection) u :
  Model.findOne short c = Some u -> Model.create full short uid c = None.
Proof.
  intros H. unfold Model.create.
  assert (E : existsb (fun v => String.eqb (shortUrl v) short) (docs c) = true).
  { apply existsb_exists. exists u. apply find_some in H. exact H. }
  rewrite E. reflexivity.
Qed.

(** X19.  When two requests claim the same free alias and both lookups are
    answered before either [Url.create], the first create stores the Link
    and the second is refused by the unique index: the second request is
    not answered [AliasTaken], its promise is rejected, and the store holds
    the first request's Link only. *)
Theorem racing_alias_claims_one_wins
    random (w : World) alias uid1 uid2 full1 full2 custom1 custom2 :
  full1 <> EmptyString -> full2 <> EmptyString ->
  custom_alias custom1 = Some alias ->
  custom_alias custom2 = Some alias ->
  Model.findOne alias (db w) = None ->
  run random [0; 1; 0; 1; 0; 1]
    (w, [arrived (post_shorten (Some uid1) (Some full1) custom1);
         arrived (post_shorten (Some uid2) (Some full2) custom2)])
  = (created full1 alias uid1 w (rng w),
     [responded (redirect "/dashboard"); responded rejected]).
Proof.
  intros H1 H2 Hc1 Hc2 Hfree.
  apply String.eqb_neq in H1, H2.
  unfold run, step. cbn [fold_left step_nth fst snd step_task start].
  rewrite H1, Hc1. cbn [fold_left step_nth fst snd step_task start].
  rewrite H2, Hc2. cbn [fold_left step_nth fst snd step_task start].
  rewrite Hfree. cbn [fold_left step_nth fst snd step_task start].
  rewrite Hfree. cbn [fold_left step_nth fst snd step_task start].
  rewrite (create_free _ _ _ _ Hfree).
  cbn [fold_left step_nth fst snd step_task start db].
  rewrite (create_taken full2 alias uid2 _ _
             (findOne_created full1 alias uid1 (db w) Hfree)).
  reflexivity.
Qed.

Lemma racing_alias_claims_one_wins_witness :
  run tape_cycle [0; 1; 0; 1; 0; 1]
    (busy_world,
     [arrived (post_shorten (Some 1) (Some "https://one.example") (Some "promo"));
      arrived (post_shorten (Some 2) (Some "https://two.example")
                 (Some " promo "))])
  = (created "https://one.example" "promo" 1 busy_world 0,
     [responded (redirect "/dashboard"); responded rejected]).
Proof.
  refine (racing_alias_claims_one_wins tape_cycle busy_world "promo" 1 2
    "https://one.example" "https://two.example" (Some "promo")
    (Some " promo ") _ _ _ _ _);
    first [discriminate | reflexivity].
Defined.

(** ** Visitors and turns *)


(** X21.  Every request is answered within seven turns when it has the
    server to itself (its start, at most five lookups and one create), and
    the response and state it ends with are those of its handler. *)
Theorem every_request_ends_within_seven_turns random r (w : World) k :
  run_alone random (7 + k) (arrived r) w
  = (responded (fst (handle random r w)), snd (handle random r w)).
Proof.
  revert r w. induction k as [|k IH]; intros r w.
  - apply handle_run_alone.
  - pose proof (handle_run_alone random r w) as H.
    replace (7 + S k) with (S k + 7) by lia.
    assert (Hsplit : forall n m t (w0 : World),
              run_alone random (n + m) t w0
              = run_alone random n (fst (run_alone random m t w0))
                  (snd (run_alone random m t w0))).
    { intros n m. induction m as [|m IHm]; intros t w0.
      - rewrite Nat.add_0_r. reflexivity.
      - rewrite Nat.add_succ_r. simpl.
        destruct (step_task random t w0) as [t' w']. apply IHm. }
    rewrite Hsplit, H. simpl fst. simpl snd. apply run_alone_responded.
Qed.
